(** * gpt-turbo: the conversation engine

    A shallow embedding of [packages/lib/src/classes/ConversationConfig.ts]
    and [packages/lib/src/classes/Conversation.ts], with the properties of
    the configuration object (moderation tri-state, dry-mode fallback,
    trimmed context) and of the turn life cycle ([prompt], [functionPrompt],
    [reprompt], serialization). *)

From Stdlib Require Import List Arith NArith Bool String Ascii Lia.
From Stdlib Require Import DecimalString.
Import ListNotations.

Set Implicit Arguments.

(** ** JavaScript strings

    A JavaScript string is a sequence of UTF-16 code units.  Only two
    built-ins matter to the code: truthiness of a string (non-empty) and
    [String.prototype.trim]. *)
Module Js.

Definition jsstring := list N.

(** Literals of the development are written in ASCII. *)
Definition str (s : string) : jsstring :=
  map N_of_ascii (list_ascii_of_string s).

Definition jsstring_eqb (a b : jsstring) : bool :=
  if list_eq_dec N.eq_dec a b then true else false.

(** [!!s] for a string [s]. *)
Definition truthy (s : jsstring) : bool :=
  match s with [] => false | _ :: _ => true end.

(** [!!x] for a property that may still be [undefined]. *)
Definition truthy_opt {A} (t : A -> bool) (x : option A) : bool :=
  match x with Some a => t a | None => false end.

(** ECMAScript WhiteSpace and LineTerminator code points (all of them lie in
    the basic plane, so each is one code unit). *)
Definition is_ws (c : N) : bool :=
  match c with
  | 9 | 10 | 11 | 12 | 13 | 32 | 160 | 5760
  | 8192 | 8193 | 8194 | 8195 | 8196 | 8197 | 8198 | 8199 | 8200 | 8201 | 8202
  | 8232 | 8233 | 8239 | 8287 | 12288 | 65279 => true
  | _ => false
  end%N.

Fixpoint trimStart (s : jsstring) : jsstring :=
  match s with
  | [] => []
  | c :: s' => if is_ws c then trimStart s' else s
  end.

Definition trimEnd (s : jsstring) : jsstring := rev (trimStart (rev s)).

Definition trim (s : jsstring) : jsstring := trimEnd (trimStart s).

(** The first and the last code unit of [s], when there are any, are not
    white space. *)
Definition starts_clean (s : jsstring) : Prop :=
  match s with [] => True | c :: _ => is_ws c = false end.

Definition no_outer_whitespace (s : jsstring) : Prop :=
  starts_clean s /\ starts_clean (rev s).

Lemma trimStart_starts_clean s : starts_clean (trimStart s).
Proof.
  induction s as [|c s IH]; simpl; [exact I|].
  destruct (is_ws c) eqn:E; [exact IH | exact E].
Qed.

Lemma trimStart_fixed s : starts_clean s -> trimStart s = s.
Proof.
  destruct s as [|c s]; simpl; [reflexivity|].
  intros ->. reflexivity.
Qed.

Lemma trimStart_suffix s : exists w, s = w ++ trimStart s.
Proof.
  induction s as [|c s [w IH]]; simpl.
  - exists []. reflexivity.
  - destruct (is_ws c).
    + exists (c :: w). simpl. f_equal. exact IH.
    + exists []. reflexivity.
Qed.

Lemma trimEnd_prefix s : exists w, s = trimEnd s ++ w.
Proof.
  unfold trimEnd. destruct (trimStart_suffix (rev s)) as [w Hw].
  exists (rev w). rewrite <- rev_app_distr, <- Hw, rev_involutive. reflexivity.
Qed.

Lemma trimEnd_ends_clean s : starts_clean (rev (trimEnd s)).
Proof.
  unfold trimEnd. rewrite rev_involutive. apply trimStart_starts_clean.
Qed.

Lemma trimEnd_fixed s : starts_clean (rev s) -> trimEnd s = s.
Proof.
  intros H. unfold trimEnd. rewrite (trimStart_fixed _ H). apply rev_involutive.
Qed.

Lemma trimEnd_keeps_start s : starts_clean s -> starts_clean (trimEnd s).
Proof.
  intros H. destruct (trimEnd_prefix s) as [w Hw].
  destruct (trimEnd s) as [|c t]; [exact I|].
  rewrite Hw in H. exact H.
Qed.

Lemma trim_clean s : no_outer_whitespace (trim s).
Proof.
  split.
  - apply trimEnd_keeps_start, trimStart_starts_clean.
  - apply trimEnd_ends_clean.
Qed.

Lemma trim_fixed s : no_outer_whitespace s -> trim s = s.
Proof.
  intros [H1 H2]. unfold trim.
  rewrite (trimStart_fixed _ H1). apply trimEnd_fixed, H2.
Qed.

Lemma trim_idempotent s : trim (trim s) = trim s.
Proof. apply trim_fixed, trim_clean. Qed.

End Js.

(** ** ConversationConfig.ts *)
Module ConversationConfig.
Import Js.

(** [disableModeration?: boolean | "soft"] *)
Inductive DisableModeration := DMfalse | DMtrue | DMsoft.

(** [!!d]: the string "soft" is truthy. *)
Definition dm_truthy (d : DisableModeration) : bool :=
  match d with DMfalse => false | DMtrue | DMsoft => true end.

(** [d === "soft"] *)
Definition dm_is_soft (d : DisableModeration) : bool :=
  match d with DMsoft => true | _ => false end.

Section Config.

(** The request properties the constructor copies unread
    ([frequency_penalty], [presence_penalty], [max_tokens], [logit_bias],
    [stop], [temperature], [top_p], [user]), as one value. *)
Variable Knobs : Type.

(** [config/constants.ts] is not part of the sources: its values are taken
    as given. *)
Variable DEFAULT_CONTEXT : jsstring.
Variable DEFAULT_DRY : bool.
Variable DEFAULT_DISABLEMODERATION : DisableModeration.
Variable DEFAULT_MODEL : jsstring.
Variable DEFAULT_STREAM : bool.

(** [ConversationConfigParameters]: every property is optional. *)
Record ConversationConfigParameters := {
  p_context : option jsstring;
  p_dry : option bool;
  p_disableModeration : option DisableModeration;
  p_apiKey : option jsstring;
  p_model : option jsstring;
  p_stream : option bool;
  p_knobs : Knobs
}.

(** The object.  The three private properties are declared with [!] and are
    [undefined] until their accessor first stores them. *)
Record t := {
  model : jsstring;
  stream : bool;
  knobs : Knobs;
  _apiKey : option jsstring;
  disableModeration : DisableModeration;
  _context : option jsstring;
  _dry : option bool
}.

Definition with_apiKey (c : t) (v : option jsstring) : t :=
  {| model := model c; stream := stream c; knobs := knobs c; _apiKey := v;
     disableModeration := disableModeration c; _context := _context c;
     _dry := _dry c |}.

Definition with_context (c : t) (v : option jsstring) : t :=
  {| model := model c; stream := stream c; knobs := knobs c;
     _apiKey := _apiKey c; disableModeration := disableModeration c;
     _context := v; _dry := _dry c |}.

Definition with_dry (c : t) (v : option bool) : t :=
  {| model := model c; stream := stream c; knobs := knobs c;
     _apiKey := _apiKey c; disableModeration := disableModeration c;
     _context := _context c; _dry := v |}.

Definition with_disableModeration (c : t) (v : DisableModeration) : t :=
  {| model := model c; stream := stream c; knobs := knobs c;
     _apiKey := _apiKey c; disableModeration := v; _context := _context c;
     _dry := _dry c |}.

Definition with_model (c : t) (v : jsstring) : t :=
  {| model := v; stream := stream c; knobs := knobs c; _apiKey := _apiKey c;
     disableModeration := disableModeration c; _context := _context c;
     _dry := _dry c |}.

Definition with_stream (c : t) (v : bool) : t :=
  {| model := model c; stream := v; knobs := knobs c; _apiKey := _apiKey c;
     disableModeration := disableModeration c; _context := _context c;
     _dry := _dry c |}.

(** [get apiKey], [get context], [get dry] *)
Definition apiKey (c : t) : option jsstring := _apiKey c.
Definition context (c : t) : option jsstring := _context c.
Definition dry (c : t) : option bool := _dry c.

(** [set dry(dry)]: store, then force [true] when the stored value is falsy
    and there is no key (the [console.warn] is not modelled). *)
Definition set_dry (c : t) (d : bool) : t :=
  let c1 := with_dry c (Some d) in
  if negb d && negb (truthy_opt truthy (apiKey c1))
  then with_dry c1 (Some true)
  else c1.

(** [set apiKey(apiKey)]: store, then revalidate dry mode if [dry] is
    already defined. *)
Definition set_apiKey (c : t) (k : jsstring) : t :=
  let c1 := with_apiKey c (Some k) in
  match dry c1 with
  | Some d => set_dry c1 d
  | None => c1
  end.

(** [set context(context)] *)
Definition set_context (c : t) (s : jsstring) : t :=
  with_context c (Some (trim s)).

Definition or_default {A} (d : A) (x : option A) : A :=
  match x with Some a => a | None => d end.

(** The constructor.  The plain properties ([model], [disableModeration],
    [stream] and the copied request properties) are written by ordinary
    assignments that no accessor reads, so they are placed in the fresh
    object at once; the accessor assignments then run in source order:
    [apiKey], [dry], [context]. *)
Definition new (p : ConversationConfigParameters) : t :=
  let context := or_default DEFAULT_CONTEXT (p_context p) in
  let dry := or_default DEFAULT_DRY (p_dry p) in
  let disableModeration :=
    or_default DEFAULT_DISABLEMODERATION (p_disableModeration p) in
  let apiKey := or_default [] (p_apiKey p) in
  let model := or_default DEFAULT_MODEL (p_model p) in
  let stream := or_default DEFAULT_STREAM (p_stream p) in
  let this :=
    {| model := model; stream := stream; knobs := p_knobs p;
       _apiKey := None; disableModeration := disableModeration;
       _context := None; _dry := None |} in
  let this := set_apiKey this apiKey in
  let this := set_dry this dry in
  let this := set_context this (trim context) in
  this.

(** [get isModerationStrict] *)
Definition isModerationStrict (c : t) : bool :=
  if negb (truthy_opt truthy (apiKey c)) then false
  else negb (dm_truthy (disableModeration c)).

(** [get isModerationSoft] *)
Definition isModerationSoft (c : t) : bool :=
  if negb (truthy_opt truthy (apiKey c)) then false
  else dm_is_soft (disableModeration c).

(** [get isModerationEnabled] *)
Definition isModerationEnabled (c : t) : bool :=
  isModerationStrict c || isModerationSoft c.

(** What client code can do to a config after construction: assign to one
    of its writable properties. *)
Inductive Assignment :=
| AssignApiKey (k : jsstring)
| AssignDry (d : bool)
| AssignContext (s : jsstring)
| AssignDisableModeration (d : DisableModeration)
| AssignModel (m : jsstring)
| AssignStream (b : bool).

Definition assign (c : t) (a : Assignment) : t :=
  match a with
  | AssignApiKey k => set_apiKey c k
  | AssignDry d => set_dry c d
  | AssignContext s => set_context c s
  | AssignDisableModeration d => with_disableModeration c d
  | AssignModel m => with_model c m
  | AssignStream b => with_stream c b
  end.

Definition assign_all (c : t) (ops : list Assignment) : t :=
  fold_left assign ops c.

(** The credential is present: the key is a non-empty string. *)
Definition has_credential (c : t) : Prop :=
  exists k, apiKey c = Some k /\ k <> [].

(** What construction establishes and every assignment keeps. *)
Definition settled (c : t) : Prop :=
  (exists k, apiKey c = Some k) /\
  (exists s, context c = Some s /\ no_outer_whitespace s) /\
  (exists d, dry c = Some d /\ (apiKey c = Some [] -> d = true)).

Lemma truthy_credential c :
  truthy_opt truthy (apiKey c) = true <-> has_credential c.
Proof.
  unfold has_credential. destruct (apiKey c) as [[|x k]|]; simpl; split.
  - discriminate.
  - intros (k & E & Hk). inversion E; subst. now elim Hk.
  - intros _. exists (x :: k). split; [reflexivity | discriminate].
  - reflexivity.
  - discriminate.
  - intros (k & E & _). discriminate.
Qed.

Lemma set_dry_settled c d :
  (exists k, apiKey c = Some k) ->
  (exists s, context c = Some s /\ no_outer_whitespace s) ->
  settled (set_dry c d).
Proof.
  intros [k Hk] Hc. unfold set_dry, settled, apiKey, context, dry in *.
  simpl. rewrite Hk. simpl.
  destruct d, k as [|x k]; simpl; repeat split; eauto;
    try (eexists; split; [reflexivity|]; congruence).
Qed.

Lemma assign_settled c a : settled c -> settled (assign c a).
Proof.
  intros (Hk & Hc & (d & Hd & Hinv)).
  destruct a as [k|d'|s| | |]; simpl.
  - unfold set_apiKey. unfold dry in *. simpl. rewrite Hd.
    apply set_dry_settled; [exists k; reflexivity | exact Hc].
  - apply set_dry_settled; assumption.
  - unfold set_context, settled, apiKey, context, dry in *. simpl.
    repeat split; eauto. eexists; split; [reflexivity | apply trim_clean].
  - unfold settled, apiKey, context, dry in *. simpl. eauto 10.
  - unfold settled, apiKey, context, dry in *. simpl. eauto 10.
  - unfold settled, apiKey, context, dry in *. simpl. eauto 10.
Qed.

Lemma new_settled p : settled (new p).
Proof.
  unfold new. cbv zeta.
  set (c0 := set_dry _ _).
  assert (H0 : exists k, apiKey c0 = Some k).
  { unfold c0, set_dry, set_apiKey, apiKey, dry. simpl.
    match goal with |- context [if ?b then _ else _] => destruct b end;
      simpl; eauto. }
  assert (Hd : exists d, dry c0 = Some d /\ (apiKey c0 = Some [] -> d = true)).
  { unfold c0, set_dry, set_apiKey, apiKey, dry. simpl.
    destruct (or_default DEFAULT_DRY (p_dry p)),
      (or_default [] (p_apiKey p)) as [|x k]; simpl;
      eexists; (split; [reflexivity|]); congruence. }
  unfold set_context, settled, apiKey, context, dry in *. simpl.
  repeat split; try assumption.
  eexists; split; [reflexivity | apply trim_clean].
Qed.

Lemma assign_all_settled ops : forall c, settled c -> settled (assign_all c ops).
Proof.
  unfold assign_all. induction ops as [|a ops IH]; simpl; intros c H.
  - exact H.
  - apply IH, assign_settled, H.
Qed.

Lemma new_context p :
  context (new p) = Some (trim (or_default DEFAULT_CONTEXT (p_context p))).
Proof.
  unfold new, set_context, context. simpl. now rewrite trim_idempotent.
Qed.

(** C3: for every config, [isModerationStrict] holds exactly when the
    credential is non-empty and [disableModeration === false],
    [isModerationSoft] exactly when the credential is non-empty and
    [disableModeration === "soft"], [isModerationEnabled] exactly when one
    of the two holds, and with an empty credential all three are false
    whatever [disableModeration] is. *)
Theorem moderation_tristate (c : t) :
  (isModerationStrict c = true <->
     has_credential c /\ disableModeration c = DMfalse) /\
  (isModerationSoft c = true <->
     has_credential c /\ disableModeration c = DMsoft) /\
  (isModerationEnabled c = true <->
     isModerationStrict c = true \/ isModerationSoft c = true) /\
  (~ has_credential c ->
     forall d,
       isModerationStrict (with_disableModeration c d) = false /\
       isModerationSoft (with_disableModeration c d) = false /\
       isModerationEnabled (with_disableModeration c d) = false).
Proof.
  pose proof (truthy_credential c) as Hc.
  unfold isModerationEnabled, isModerationStrict, isModerationSoft.
  repeat split.
  - destruct (truthy_opt truthy (apiKey c)); simpl in *;
      [apply Hc; reflexivity | discriminate].
  - destruct (truthy_opt truthy (apiKey c)); simpl in *; [|discriminate].
    destruct (disableModeration c); simpl in *; congruence.
  - intros [Hk Hd]. apply Hc in Hk. rewrite Hk, Hd. reflexivity.
  - destruct (truthy_opt truthy (apiKey c)); simpl in *;
      [apply Hc; reflexivity | discriminate].
  - destruct (truthy_opt truthy (apiKey c)); simpl in *; [|discriminate].
    destruct (disableModeration c); simpl in *; congruence.
  - intros [Hk Hd]. apply Hc in Hk. rewrite Hk, Hd. reflexivity.
  - apply orb_true_iff.
  - apply orb_true_iff.
  - destruct (truthy_opt truthy (apiKey (with_disableModeration c d))) eqn:E;
      [|reflexivity].
    elim H. apply Hc. exact E.
  - destruct (truthy_opt truthy (apiKey (with_disableModeration c d))) eqn:E;
      [|reflexivity].
    elim H. apply Hc. exact E.
  - destruct (truthy_opt truthy (apiKey (with_disableModeration c d))) eqn:E;
      [|reflexivity].
    elim H. apply Hc. exact E.
Qed.

(** C4: after construction and after any sequence of assignments, a config
    without a credential has [dry === true], whatever value was requested;
    in particular a config constructed with no credential and [dry] unset. *)
Theorem dry_forced_without_credential
    (p : ConversationConfigParameters) (ops : list Assignment) :
  (~ has_credential (assign_all (new p) ops) ->
     dry (assign_all (new p) ops) = Some true) /\
  (p_apiKey p = None -> p_dry p = None -> dry (new p) = Some true).
Proof.
  assert (G : forall c, settled c -> ~ has_credential c -> dry c = Some true).
  { intros c ([k Hk] & _ & (d & Hd & Hinv)) Hno.
    rewrite Hd. f_equal. apply Hinv. rewrite Hk. f_equal.
    destruct k as [|x k]; [reflexivity|].
    elim Hno. exists (x :: k). split; [exact Hk | discriminate]. }
  split.
  - apply G, assign_all_settled, new_settled.
  - intros Hk _. apply G; [apply new_settled|].
    intros (k & Ek & Hne). apply Hne.
    unfold new, set_context, set_dry, set_apiKey, apiKey, dry in Ek.
    rewrite Hk in Ek. simpl in Ek.
    destruct (or_default DEFAULT_DRY (p_dry p)); simpl in Ek; congruence.
Qed.

(** C9: the stored context never has leading or trailing white space: the
    constructor and every assignment to [context] store the trimmed value
    of the string they are given. *)
Theorem context_is_trimmed
    (p : ConversationConfigParameters) (ops : list Assignment) :
  context (new p) = Some (trim (or_default DEFAULT_CONTEXT (p_context p))) /\
  (forall c s, context (set_context c s) = Some (trim s)) /\
  (exists s, context (assign_all (new p) ops) = Some s /\
             no_outer_whitespace s).
Proof.
  split; [apply new_context|]. split; [reflexivity|].
  destruct (assign_all_settled ops (new_settled p)) as (_ & H & _). exact H.
Qed.

End Config.

(** *** Concrete configs

    The defaults are the documented ones ([@default] in the parameter
    comments); no request property is copied. *)

Definition documented_context : jsstring :=
  str ("You are a large language model trained by OpenAI. "
       ++ "Answer as concisely as possible.").

Definition construct : ConversationConfigParameters unit -> t unit :=
  new documented_context false DMfalse (str "gpt-3.5-turbo") false.

Definition no_parameters : ConversationConfigParameters unit :=
  {| p_context := None; p_dry := None; p_disableModeration := None;
     p_apiKey := None; p_model := None; p_stream := None; p_knobs := tt |}.

Definition with_key_and_padding : ConversationConfigParameters unit :=
  {| p_context := Some (str "  Be brief.  "); p_dry := Some false;
     p_disableModeration := Some DMsoft; p_apiKey := Some (str "sk-1");
     p_model := None; p_stream := None; p_knobs := tt |}.

Example soft_moderation_with_key :
  isModerationStrict (construct with_key_and_padding) = false /\
  isModerationSoft (construct with_key_and_padding) = true /\
  isModerationEnabled (construct with_key_and_padding) = true /\
  dry (construct with_key_and_padding) = Some false /\
  context (construct with_key_and_padding) = Some (str "Be brief.").
Proof. repeat split. Qed.

(** Without a key nothing is moderated, whatever the mode. *)
Lemma moderation_tristate_witness :
  isModerationStrict (construct no_parameters) = false /\
  isModerationSoft
    (with_disableModeration (construct no_parameters) DMsoft) = false /\
  isModerationEnabled
    (with_disableModeration (construct no_parameters) DMtrue) = false.
Proof.
  assert (H : ~ has_credential (construct no_parameters)).
  { intros (k & Hk & Hne). vm_compute in Hk. congruence. }
  pose proof (proj2 (proj2 (proj2
    (moderation_tristate (construct no_parameters)))) H) as G.
  split; [exact (proj1 (G DMfalse))|].
  split; [exact (proj1 (proj2 (G DMsoft)))|].
  exact (proj2 (proj2 (G DMtrue))).
Defined.

(** Dropping the key after asking for a real run turns dry mode on. *)
Lemma dry_forced_without_credential_witness :
  dry (assign_all (construct with_key_and_padding)
         [AssignDry false; AssignApiKey []]) = Some true /\
  dry (construct no_parameters) = Some true.
Proof.
  split.
  - apply (proj1 (dry_forced_without_credential documented_context false
                    DMfalse (str "gpt-3.5-turbo") false
                    with_key_and_padding
                    [AssignDry false; AssignApiKey []])).
    intros (k & Hk & Hne). vm_compute in Hk. congruence.
  - apply (proj2 (dry_forced_without_credential documented_context false
                    DMfalse (str "gpt-3.5-turbo") false
                    no_parameters [])); reflexivity.
Defined.

End ConversationConfig.

(** ** Conversation.ts: the turn life cycle *)
Module Conversation.
Import Js.

Inductive Role := Rsystem | Ruser | Rassistant | Rfunction.

(** Modelled from the spec: [Message.ts] is not part of the sources; a
    message is one record with a role tag, an id, nullable content, a name
    (function messages only), moderation flags and the streaming bit. *)
Record Message := {
  m_id : jsstring;
  m_role : Role;
  m_content : option jsstring;
  m_name : option jsstring;
  m_flags : list jsstring;
  m_streaming : bool
}.

Definition is_user (m : Message) : bool :=
  match m_role m with Ruser => true | _ => false end.

Definition same_id (id : jsstring) (m : Message) : bool :=
  jsstring_eqb (m_id m) id.

Definition with_content (m : Message) (c : option jsstring) : Message :=
  {| m_id := m_id m; m_role := m_role m; m_content := c; m_name := m_name m;
     m_flags := m_flags m; m_streaming := m_streaming m |}.

(** [Array.prototype.findIndex]; [None] stands for [-1]. *)
Fixpoint findIndex {A} (p : A -> bool) (l : list A) : option nat :=
  match l with
  | [] => None
  | x :: l' => if p x then Some 0 else option_map S (findIndex p l')
  end.

(** [Array.prototype.slice(start)]; the index [None] stands for [-1],
    which counts from the end. *)
Definition slice {A} (start : option nat) (l : list A) : list A :=
  match start with
  | Some i => skipn i l
  | None => skipn (List.length l - 1) l
  end.

Section Engine.

(** Values thrown by the collaborators, JavaScript values handed to
    [functionPrompt], and the two option bags [prompt] passes on unread. *)
Variables E JsValue PromptOptions RequestOptions : Type.

(** What a [throw] carries: [new Error(message)] raised by the facade, the
    engine's [TypeError] on reading a property of [undefined], or whatever
    a collaborator threw. *)
Inductive Thrown :=
| JsError (message : jsstring)
| JsTypeError
| Raised (e : E).

Inductive Result (A : Type) :=
| Returned (a : A)
| Threw (e : Thrown).
Arguments Returned {A} a.
Arguments Threw {A} e.

(** A collaborator (a plugin hook, the moderation gate, the completion
    service) is awaited to completion; it may read and change the history
    and either returns or throws.  Turns of one conversation are taken one
    at a time. *)
Definition Effect (A : Type) := list Message -> list Message * Result A.

(** The collaborators of [Conversation]: [ConversationPluginService.ts] and
    [ChatCompletionService.ts] are not part of the sources. *)
Record Collaborators := {
  onUserPrompt : Message -> Effect unit;
  onUserPromptError : Thrown -> Effect unit;
  onFunctionPrompt : Message -> Effect unit;
  onFunctionPromptError : Thrown -> Effect unit;
  transformFunctionResult : JsValue -> Effect JsValue;
  moderateMessage : Message -> Effect unit;
  getAssistantResponse :
    option PromptOptions -> option RequestOptions -> Effect Message
}.

(** The built-ins [functionPrompt] uses: [typeof v === "string"] (with the
    string itself) and [JSON.stringify].  The latter returns a string, or
    [undefined] ([None]) for a value that has no JSON text ([undefined], a
    function, a symbol), or throws (a cyclic value, a BigInt). *)
Variable typeof_string : JsValue -> option jsstring.
Variable JSON_stringify : JsValue -> Result (option jsstring).

(** Ghost record of the collaborator calls made so far, in order. *)
Inductive Call :=
| CallOnUserPrompt (m : Message)
| CallOnUserPromptError (e : Thrown)
| CallOnFunctionPrompt (m : Message)
| CallOnFunctionPromptError (e : Thrown)
| CallTransformFunctionResult (v : JsValue)
| CallModerateMessage (m : Message)
| CallGetAssistantResponse.

Record World := {
  messages : list Message;
  calls : list Call
}.

(** State and exceptions. *)
Definition M (A : Type) := World -> World * Result A.

Definition ret {A} (a : A) : M A := fun w => (w, Returned a).

Definition throw {A} (e : Thrown) : M A := fun w => (w, Threw e).

Definition bind {A B} (c : M A) (k : A -> M B) : M B :=
  fun w =>
    match c w with
    | (w', Returned a) => k a w'
    | (w', Threw e) => (w', Threw e)
    end.

(** [try { body } catch (e) { handler }] *)
Definition try_catch {A} (body : M A) (handler : Thrown -> M A) : M A :=
  fun w =>
    match body w with
    | (w', Returned a) => (w', Returned a)
    | (w', Threw e) => handler e w'
    end.

Definition lift {A} (r : Result A) : M A := fun w => (w, r).

(** [await collaborator(...)], recorded in the ghost log. *)
Definition call {A} (c : Call) (f : Effect A) : M A :=
  fun w =>
    let (h, r) := f (messages w) in
    ({| messages := h; calls := calls w ++ [c] |}, r).

Notation "x <- c ;; k" := (bind c (fun x => k))
  (at level 61, c at next level, right associativity).
Notation "c ;; k" := (bind c (fun _ => k))
  (at level 61, right associativity).

(** *** ConversationHistory *)

(** Modelled from the spec: [ConversationHistory.getMessages] returns the
    ordered sequence of messages. *)
Definition getMessages : M (list Message) :=
  fun w => (w, Returned (messages w)).

(** Modelled from the spec: [ConversationHistory.addUserMessage] appends a
    role=user message; the empty prompt is permitted.  [uid] is the id
    generated for the new message. *)
Definition addUserMessage (uid : jsstring) (content : jsstring) : M Message :=
  fun w =>
    let m := {| m_id := uid; m_role := Ruser; m_content := Some content;
                m_name := None; m_flags := []; m_streaming := false |} in
    ({| messages := messages w ++ [m]; calls := calls w |}, Returned m).

(** Modelled from the spec: [ConversationHistory.addFunctionMessage] appends
    a role=function message carrying [name]; the content is stored as it is
    passed, an [undefined] one as no content. *)
Definition addFunctionMessage (uid : jsstring) (content : option jsstring)
    (name : jsstring) : M Message :=
  fun w =>
    let m := {| m_id := uid; m_role := Rfunction; m_content := content;
                m_name := Some name; m_flags := []; m_streaming := false |} in
    ({| messages := messages w ++ [m]; calls := calls w |}, Returned m).

(** Modelled from the spec: [ConversationHistory.removeMessage] removes by
    id and is a no-op when the id is absent. *)
Definition removeMessage (m : Message) : M unit :=
  fun w =>
    ({| messages := filter (fun x => negb (same_id (m_id m) x)) (messages w);
        calls := calls w |}, Returned tt).

(** [list.forEach(f)] *)
Fixpoint forEach {A} (l : list A) (f : A -> M unit) : M unit :=
  match l with
  | [] => ret tt
  | x :: l' => f x ;; forEach l' f
  end.

Variable C : Collaborators.

(** *** prompt *)

(** The body of the [try] block of [prompt]. *)
Definition userStages (userMessage : Message)
    (options : option PromptOptions)
    (requestOptions : option RequestOptions) : M Message :=
  call (CallOnUserPrompt userMessage) (onUserPrompt C userMessage) ;;
  call (CallModerateMessage userMessage) (moderateMessage C userMessage) ;;
  assistantMessage <-
    call CallGetAssistantResponse
      (getAssistantResponse C options requestOptions) ;;
  ret assistantMessage.

(** The [catch] block of [prompt]. *)
Definition userRollback (userMessage : Message) (e : Thrown) : M Message :=
  call (CallOnUserPromptError e) (onUserPromptError C e) ;;
  removeMessage userMessage ;;
  throw e.

Definition prompt (uid : jsstring) (prompt : jsstring)
    (options : option PromptOptions)
    (requestOptions : option RequestOptions) : M Message :=
  userMessage <- addUserMessage uid prompt ;;
  try_catch (userStages userMessage options requestOptions)
            (userRollback userMessage).

(** *** reprompt *)

Definition quote : jsstring := [34%N].

Definition not_found_message (id : jsstring) : jsstring :=
  str "Message with ID " ++ quote ++ id ++ quote ++ str " not found.".

Definition no_previous_user_message (id : jsstring) : jsstring :=
  str "Could not find a previous user message to reprompt from ("
    ++ id ++ str ").".

(** The [while] loop of [reprompt]: step back from [idx] until a user
    message is met; the index result [None] stands for [-1], where the loop
    breaks and leaves the message variable at the last one read. *)
Fixpoint walk_back (messages : list Message) (idx : nat) (pum : Message)
  : Result (option nat * Message) :=
  if is_user pum then Returned (Some idx, pum)
  else
    match idx with
    | 0 => Returned (None, pum)
    | S i =>
        match nth_error messages i with
        | Some m => walk_back messages i m
        | None => Threw JsTypeError
        end
    end.

Definition reprompt (uid : jsstring) (fromMessageOrId : jsstring + Message)
    (newPrompt : option jsstring)
    (options : option PromptOptions)
    (requestOptions : option RequestOptions) : M Message :=
  let id :=
    match fromMessageOrId with
    | inl s => s
    | inr m => m_id m
    end in
  messages <- getMessages ;;
  match findIndex (same_id id) messages with
  | None => throw (JsError (not_found_message id))
  | Some fromIndex =>
      match nth_error messages fromIndex with
      | None => throw JsTypeError
      | Some first =>
          found <- lift (walk_back messages fromIndex first) ;;
          let (previousUserMessageIndex, previousUserMessage) := found in
          if negb (is_user previousUserMessage)
          then throw (JsError (no_previous_user_message id))
          else
            forEach (slice previousUserMessageIndex messages)
                    removeMessage ;;
            let previousUserMessage :=
              if truthy_opt truthy newPrompt
              then with_content previousUserMessage newPrompt
              else previousUserMessage in
            let prompt_ :=
              match newPrompt with
              | Some s => s
              | None =>
                  match m_content previousUserMessage with
                  | Some c => c
                  | None => []
                  end
              end in
            prompt uid prompt_ options requestOptions
      end
  end.

(** *** functionPrompt *)

(** The body of the [try] block of [functionPrompt]. *)
Definition functionStages (functionMessage : Message)
    (options : option PromptOptions)
    (requestOptions : option RequestOptions) : M Message :=
  call (CallOnFunctionPrompt functionMessage)
       (onFunctionPrompt C functionMessage) ;;
  call (CallModerateMessage functionMessage)
       (moderateMessage C functionMessage) ;;
  assistantMessage <-
    call CallGetAssistantResponse
      (getAssistantResponse C options requestOptions) ;;
  ret assistantMessage.

(** The [catch] block of [functionPrompt]. *)
Definition functionRollback (functionMessage : Message) (e : Thrown)
  : M Message :=
  call (CallOnFunctionPromptError e) (onFunctionPromptError C e) ;;
  removeMessage functionMessage ;;
  throw e.

(** [typeof v === "string" ? v : JSON.stringify(v)] *)
Definition stringify (v : JsValue) : Result (option jsstring) :=
  match typeof_string v with
  | Some s => Returned (Some s)
  | None => JSON_stringify v
  end.

Definition functionPrompt (uid : jsstring) (name : jsstring)
    (result : JsValue)
    (options : option PromptOptions)
    (requestOptions : option RequestOptions) : M Message :=
  transformedResult <-
    call (CallTransformFunctionResult result)
         (transformFunctionResult C result) ;;
  content <- lift (stringify transformedResult) ;;
  functionMessage <- addFunctionMessage uid content name ;;
  try_catch (functionStages functionMessage options requestOptions)
            (functionRollback functionMessage).

(** *** Specification vocabulary *)

Definition userMessageOf (uid content : jsstring) : Message :=
  {| m_id := uid; m_role := Ruser; m_content := Some content;
     m_name := None; m_flags := []; m_streaming := false |}.

Definition functionMessageOf (uid : jsstring) (content : option jsstring)
    (name : jsstring) : Message :=
  {| m_id := uid; m_role := Rfunction; m_content := content;
     m_name := Some name; m_flags := []; m_streaming := false |}.

(** The world once [m] has been appended to the history. *)
Definition appended (w : World) (m : Message) : World :=
  {| messages := messages w ++ [m]; calls := calls w |}.

(** The world once a collaborator call [c] has left the history [h]. *)
Definition called (w : World) (c : Call) (h : list Message) : World :=
  {| messages := h; calls := calls w ++ [c] |}.

(** The history [h] without the messages whose id is [uid]. *)
Definition without (uid : jsstring) (h : list Message) : list Message :=
  filter (fun x => negb (same_id uid x)) h.

(** No message of [h] has the id [uid]. *)
Definition fresh (uid : jsstring) (h : list Message) : Prop :=
  forall m, In m h -> m_id m <> uid.

(** The content [reprompt] reads from a message: [content ?? ""]. *)
Definition content_text (m : Message) : jsstring :=
  match m_content m with Some c => c | None => [] end.

(** The id [reprompt] resolves its first argument to. *)
Definition target_id (fromMessageOrId : jsstring + Message) : jsstring :=
  match fromMessageOrId with inl s => s | inr m => m_id m end.

(** *** The [try]/[catch] of a turn *)

Lemma same_id_true id m : same_id id m = true <-> m_id m = id.
Proof.
  unfold same_id, jsstring_eqb.
  destruct (list_eq_dec N.eq_dec (m_id m) id); split; congruence.
Qed.

Lemma same_id_false id m : same_id id m = false <-> m_id m <> id.
Proof.
  unfold same_id, jsstring_eqb.
  destruct (list_eq_dec N.eq_dec (m_id m) id); split; congruence.
Qed.

Lemma without_fresh uid h : fresh uid h -> without uid h = h.
Proof.
  unfold without, fresh. induction h as [|x h IH]; simpl; intros H.
  - reflexivity.
  - assert (Hx : same_id uid x = false)
      by (apply same_id_false, H; left; reflexivity).
    rewrite Hx. simpl. f_equal. apply IH. intros m Hm. apply H. now right.
Qed.

Lemma without_appended uid h m :
  fresh uid h -> m_id m = uid -> without uid (h ++ [m]) = h.
Proof.
  intros Hf Hm. unfold without. rewrite filter_app. simpl.
  apply same_id_true in Hm. rewrite Hm. simpl. rewrite app_nil_r.
  apply without_fresh, Hf.
Qed.

Lemma prompt_unfold uid text o r w :
  prompt uid text o r w =
  try_catch (userStages (userMessageOf uid text) o r)
            (userRollback (userMessageOf uid text))
            (appended w (userMessageOf uid text)).
Proof. reflexivity. Qed.

Lemma try_catch_threw {A} (body : M A) handler w w' e :
  body w = (w', Threw e) -> try_catch body handler w = handler e w'.
Proof. unfold try_catch. now intros ->. Qed.

Lemma try_catch_returned {A} (body : M A) handler w w' a :
  body w = (w', Returned a) -> try_catch body handler w = (w', Returned a).
Proof. unfold try_catch. now intros ->. Qed.

(** The [catch] block of [prompt], by the outcome of the error hook. *)
Lemma userRollback_run um e w :
  userRollback um e w =
  match onUserPromptError C e (messages w) with
  | (h, Returned _) =>
      ({| messages := without (m_id um) h;
          calls := calls w ++ [CallOnUserPromptError e] |}, Threw e)
  | (h, Threw e') => (called w (CallOnUserPromptError e) h, Threw e')
  end.
Proof.
  unfold userRollback, bind, call, removeMessage, throw, called, without.
  destruct (onUserPromptError C e (messages w)) as [h [[]|e']]; reflexivity.
Qed.

(** The [catch] block of [functionPrompt], likewise. *)
Lemma functionRollback_run fm e w :
  functionRollback fm e w =
  match onFunctionPromptError C e (messages w) with
  | (h, Returned _) =>
      ({| messages := without (m_id fm) h;
          calls := calls w ++ [CallOnFunctionPromptError e] |}, Threw e)
  | (h, Threw e') => (called w (CallOnFunctionPromptError e) h, Threw e')
  end.
Proof.
  unfold functionRollback, bind, call, removeMessage, throw, called, without.
  destruct (onFunctionPromptError C e (messages w)) as [h [[]|e']];
    reflexivity.
Qed.

(** [functionPrompt] once the transform has returned [v] and [v] has been
    turned into [content]. *)
Lemma functionPrompt_unfold uid name result o r w h1 v content :
  transformFunctionResult C result (messages w) = (h1, Returned v) ->
  stringify v = Returned content ->
  functionPrompt uid name result o r w =
  try_catch (functionStages (functionMessageOf uid content name) o r)
            (functionRollback (functionMessageOf uid content name))
            (appended (called w (CallTransformFunctionResult result) h1)
                      (functionMessageOf uid content name)).
Proof.
  intros Ht Hs. unfold functionPrompt, bind at 1, call at 1.
  rewrite Ht. unfold bind at 1, lift. rewrite Hs. reflexivity.
Qed.

(** What the stages of a turn add to the ghost log. *)
Lemma functionStages_calls fm o r w :
  exists rest,
    calls (fst (functionStages fm o r w)) =
      calls w ++ CallOnFunctionPrompt fm :: rest /\
    (forall a, snd (functionStages fm o r w) = Returned a ->
       rest = [CallModerateMessage fm; CallGetAssistantResponse]).
Proof.
  unfold functionStages, bind, call, ret.
  destruct (onFunctionPrompt C fm (messages w)) as [h1 [[]|e1]]; simpl.
  2:{ exists []. split; [reflexivity | discriminate]. }
  destruct (moderateMessage C fm h1) as [h2 [[]|e2]]; simpl.
  2:{ exists [CallModerateMessage fm]. rewrite <- app_assoc.
      split; [reflexivity | discriminate]. }
  destruct (getAssistantResponse C o r h2) as [h3 [a|e3]]; simpl;
    exists [CallModerateMessage fm; CallGetAssistantResponse];
    rewrite <- !app_assoc; split; reflexivity || discriminate || trivial.
Qed.

(** *** Rollback of a failed turn *)

(** C1 (amended): when a stage after the insertion of the pending message
    fails with [e] and the error hook then returns normally, [prompt] and
    [functionPrompt] remove the pending message by id from the history the
    collaborators left and rethrow [e] itself; when those collaborators left
    the history as it was after the insertion and the id of the pending
    message was new, the history afterwards is the history before the
    call. *)
Theorem failed_turn_rolls_back :
  (forall uid text o r w w2 e h3,
     userStages (userMessageOf uid text) o r
       (appended w (userMessageOf uid text)) = (w2, Threw e) ->
     onUserPromptError C e (messages w2) = (h3, Returned tt) ->
     snd (prompt uid text o r w) = Threw e /\
     messages (fst (prompt uid text o r w)) = without uid h3 /\
     (fresh uid (messages w) ->
      h3 = messages w ++ [userMessageOf uid text] ->
      messages (fst (prompt uid text o r w)) = messages w)) /\
  (forall uid name result o r w h1 v content w2 e h3,
     transformFunctionResult C result (messages w) = (h1, Returned v) ->
     stringify v = Returned content ->
     functionStages (functionMessageOf uid content name) o r
       (appended (called w (CallTransformFunctionResult result) h1)
                 (functionMessageOf uid content name)) = (w2, Threw e) ->
     onFunctionPromptError C e (messages w2) = (h3, Returned tt) ->
     snd (functionPrompt uid name result o r w) = Threw e /\
     messages (fst (functionPrompt uid name result o r w)) = without uid h3 /\
     (fresh uid (messages w) ->
      h3 = messages w ++ [functionMessageOf uid content name] ->
      messages (fst (functionPrompt uid name result o r w)) = messages w)).
Proof.
  split.
  - intros uid text o r w w2 e h3 Hs Hh.
    rewrite prompt_unfold, (try_catch_threw _ _ _ Hs), userRollback_run, Hh.
    simpl. repeat split.
    intros Hf ->. now apply without_appended.
  - intros uid name result o r w h1 v content w2 e h3 Ht Hc Hs Hh.
    rewrite (@functionPrompt_unfold uid name result o r w h1 v content Ht Hc),
      (try_catch_threw _ _ _ Hs), functionRollback_run, Hh.
    simpl. repeat split.
    intros Hf ->. now apply without_appended.
Qed.

(** C2 (amended): in a failed turn the error hook runs first and the
    rollback comes after it.  When the hook returns normally the pending
    message is removed and the original error is rethrown; when the hook
    itself throws [e'], the call ends there: the history is the one the
    hook left, nothing is removed from it, and the caller receives [e']. *)
Theorem error_hook_precedes_rollback :
  (forall uid text o r w w2 e h3,
     userStages (userMessageOf uid text) o r
       (appended w (userMessageOf uid text)) = (w2, Threw e) ->
     (onUserPromptError C e (messages w2) = (h3, Returned tt) ->
      prompt uid text o r w =
        ({| messages := without uid h3;
            calls := calls w2 ++ [CallOnUserPromptError e] |}, Threw e)) /\
     (forall e',
        onUserPromptError C e (messages w2) = (h3, Threw e') ->
        prompt uid text o r w =
          ({| messages := h3;
              calls := calls w2 ++ [CallOnUserPromptError e] |}, Threw e'))) /\
  (forall uid name result o r w h1 v content w2 e h3,
     transformFunctionResult C result (messages w) = (h1, Returned v) ->
     stringify v = Returned content ->
     functionStages (functionMessageOf uid content name) o r
       (appended (called w (CallTransformFunctionResult result) h1)
                 (functionMessageOf uid content name)) = (w2, Threw e) ->
     (onFunctionPromptError C e (messages w2) = (h3, Returned tt) ->
      functionPrompt uid name result o r w =
        ({| messages := without uid h3;
            calls := calls w2 ++ [CallOnFunctionPromptError e] |}, Threw e)) /\
     (forall e',
        onFunctionPromptError C e (messages w2) = (h3, Threw e') ->
        functionPrompt uid name result o r w =
          ({| messages := h3;
              calls := calls w2 ++ [CallOnFunctionPromptError e] |},
           Threw e'))).
Proof.
  split.
  - intros uid text o r w w2 e h3 Hs.
    rewrite prompt_unfold, (try_catch_threw _ _ _ Hs), userRollback_run.
    split; [intros -> | intros e' ->]; reflexivity.
  - intros uid name result o r w h1 v content w2 e h3 Ht Hc Hs.
    rewrite (@functionPrompt_unfold uid name result o r w h1 v content Ht Hc),
      (try_catch_threw _ _ _ Hs), functionRollback_run.
    split; [intros -> | intros e' ->]; reflexivity.
Qed.

(** *** functionPrompt *)

(** C8 (amended): [functionPrompt] first runs [result] through
    [transformFunctionResult].  When the transform returns [v] and the
    conversion of [v] does not throw, the content of a new role=function
    message is [v] unchanged when [v] is a string and whatever
    [JSON.stringify(v)] returns otherwise (a string, or [undefined] for a
    value without JSON text); that message is appended to the history the
    transform left, and only then do the function-prompt hook, moderation
    and completion run, in this order.  When [JSON.stringify(v)] throws,
    [functionPrompt] throws that error: no message is appended and none of
    the three runs. *)
Theorem functionPrompt_appends_encoded_result uid name result o r w h1 v :
  transformFunctionResult C result (messages w) = (h1, Returned v) ->
  (forall content,
     match typeof_string v with
     | Some s => content = Some s
     | None => JSON_stringify v = Returned content
     end ->
     let fm := functionMessageOf uid content name in
     m_role fm = Rfunction /\ m_content fm = content /\
     m_name fm = Some name /\
     functionPrompt uid name result o r w =
       try_catch (functionStages fm o r) (functionRollback fm)
         {| messages := h1 ++ [fm];
            calls := calls w ++ [CallTransformFunctionResult result] |} /\
     exists rest,
       calls (fst (functionPrompt uid name result o r w)) =
         calls w ++ CallTransformFunctionResult result
                 :: CallOnFunctionPrompt fm :: rest /\
       (forall a, snd (functionPrompt uid name result o r w) = Returned a ->
          rest = [CallModerateMessage fm; CallGetAssistantResponse])) /\
  (forall e,
     typeof_string v = None ->
     JSON_stringify v = Threw e ->
     functionPrompt uid name result o r w =
       ({| messages := h1;
           calls := calls w ++ [CallTransformFunctionResult result] |},
        Threw e)).
Proof.
  intros Ht. split.
  - intros content Hc fm.
    assert (Hs : stringify v = Returned content).
    { unfold stringify. destruct (typeof_string v); congruence. }
    pose proof (@functionPrompt_unfold uid name result o r w h1 v content
                  Ht Hs) as Hu.
    fold fm in Hu. unfold appended, called in Hu. simpl in Hu.
    repeat split; try exact Hu.
    rewrite Hu. unfold try_catch.
    set (w1 := {| messages := h1 ++ [fm]; calls := _ |}).
    destruct (functionStages_calls fm o r w1) as (rest & Hrest & Hok).
    destruct (functionStages fm o r w1) as [w2 [a|e]] eqn:Hst; simpl in *.
    + exists rest. rewrite Hrest. unfold w1. simpl. rewrite <- app_assoc.
      split; [reflexivity|]. intros a' _. now apply (Hok a).
    + rewrite functionRollback_run.
      destruct (onFunctionPromptError C e (messages w2)) as [h3 [[]|e']];
        simpl; rewrite Hrest; unfold w1; simpl; rewrite <- !app_assoc; simpl;
        eexists; (split; [reflexivity | discriminate]).
  - intros e Hty He.
    unfold functionPrompt, bind at 1, call at 1. rewrite Ht.
    unfold bind at 1, lift, stringify. now rewrite Hty, He.
Qed.

(** C10: when [transformFunctionResult] itself throws, [functionPrompt]
    ends with that error; no function message is appended (the history is
    the one the transform left, hence unchanged when the transform did not
    touch it) and the only collaborator call made is the transform:
    [onFunctionPromptError] is not invoked. *)
Theorem transform_failure_propagates uid name result o r w h1 e :
  transformFunctionResult C result (messages w) = (h1, Threw e) ->
  functionPrompt uid name result o r w =
    ({| messages := h1;
        calls := calls w ++ [CallTransformFunctionResult result] |},
     Threw e) /\
  (h1 = messages w ->
   messages (fst (functionPrompt uid name result o r w)) = messages w) /\
  (forall e',
     ~ In (CallOnFunctionPromptError e')
          (skipn (List.length (calls w))
                 (calls (fst (functionPrompt uid name result o r w))))).
Proof.
  intros Ht.
  assert (Hrun : functionPrompt uid name result o r w =
                 ({| messages := h1;
                     calls := calls w ++ [CallTransformFunctionResult result] |},
                  Threw e)).
  { unfold functionPrompt, bind at 1, call at 1. rewrite Ht. reflexivity. }
  rewrite Hrun. simpl. repeat split.
  - intros ->. reflexivity.
  - rewrite skipn_app, skipn_all, Nat.sub_diag. simpl.
    intros e' [H|[]]. discriminate.
Qed.

(** *** reprompt *)

Lemma walk_back_eq l idx pum :
  walk_back l idx pum =
  if is_user pum then Returned (Some idx, pum)
  else
    match idx with
    | 0 => Returned (None, pum)
    | S i =>
        match nth_error l i with
        | Some m => walk_back l i m
        | None => Threw JsTypeError
        end
    end.
Proof. destruct idx; reflexivity. Qed.

Lemma findIndex_none {A} (p : A -> bool) l :
  (forall x, In x l -> p x = false) -> findIndex p l = None.
Proof.
  induction l as [|x l IH]; simpl; intros H; [reflexivity|].
  rewrite (H x (or_introl eq_refl)), IH; [reflexivity|].
  intros y Hy. apply H. now right.
Qed.

Lemma findIndex_first {A} (p : A -> bool) a t b :
  (forall x, In x a -> p x = false) -> p t = true ->
  findIndex p (a ++ t :: b) = Some (List.length a).
Proof.
  induction a as [|x a IH]; simpl; intros H Ht.
  - now rewrite Ht.
  - rewrite (H x (or_introl eq_refl)), IH; [reflexivity| |exact Ht].
    intros y Hy. apply H. now right.
Qed.

(** Walking back through non-user messages stops at the user message. *)
Lemma walk_back_found pre u mid post :
  is_user u = true ->
  Forall (fun m => is_user m = false) mid ->
  forall k pum,
    nth_error (u :: mid) k = Some pum ->
    walk_back (pre ++ u :: mid ++ post) (List.length pre + k) pum =
      Returned (Some (List.length pre), u).
Proof.
  intros Hu Hmid k. induction k as [|k IH]; intros pum Hk.
  - simpl in Hk. injection Hk as <-.
    rewrite walk_back_eq, Hu, Nat.add_0_r. reflexivity.
  - simpl in Hk.
    assert (Hp : is_user pum = false).
    { rewrite Forall_forall in Hmid. apply Hmid.
      eapply nth_error_In, Hk. }
    rewrite walk_back_eq, Hp, Nat.add_succ_r.
    assert (Hlt : k < List.length (u :: mid)).
    { simpl. apply Nat.lt_lt_succ_r.
      apply nth_error_Some. congruence. }
    destruct (nth_error (u :: mid) k) as [m|] eqn:Hm.
    2:{ apply nth_error_None in Hm. lia. }
    assert (Hn : nth_error (pre ++ u :: mid ++ post) (List.length pre + k)
                 = Some m).
    { rewrite nth_error_app2 by lia.
      replace (List.length pre + k - List.length pre) with k by lia.
      change (u :: mid ++ post) with ((u :: mid) ++ post).
      rewrite nth_error_app1 by exact Hlt. exact Hm. }
    rewrite Hn. apply IH. reflexivity.
Qed.

(** With no user message at or below the start, the walk runs off the
    front of the history. *)
Lemma walk_back_off_front l :
  forall idx pum,
    idx <= List.length l ->
    is_user pum = false ->
    (forall i m, i < idx -> nth_error l i = Some m -> is_user m = false) ->
    exists m, walk_back l idx pum = Returned (None, m) /\ is_user m = false.
Proof.
  induction idx as [|i IH]; intros pum Hlen Hp Hall.
  - exists pum. split; [|exact Hp]. rewrite walk_back_eq, Hp. reflexivity.
  - rewrite walk_back_eq, Hp.
    destruct (nth_error l i) as [m|] eqn:Hm.
    2:{ apply nth_error_None in Hm. lia. }
    apply IH; [lia | apply (Hall i); [lia | exact Hm] |].
    intros j m' Hj. apply Hall. lia.
Qed.

(** Removing a list of messages one at a time leaves the messages whose id
    is none of theirs. *)
Lemma forEach_removeMessage l :
  forall w,
    forEach l removeMessage w =
      ({| messages :=
            filter (fun x => negb (existsb (fun m => same_id (m_id m) x) l))
                   (messages w);
          calls := calls w |}, Returned tt).
Proof.
  induction l as [|m l IH]; intros w; simpl.
  - unfold ret. destruct w as [h c]. simpl. f_equal. f_equal.
    induction h as [|x h IHh]; simpl; [reflexivity | now rewrite <- IHh].
  - unfold bind, removeMessage at 1. rewrite IH. simpl. f_equal. f_equal.
    induction (messages w) as [|x h IHh]; simpl; [reflexivity|].
    destruct (same_id (m_id m) x); simpl; [exact IHh|].
    destruct (existsb _ l); simpl; [exact IHh | now rewrite IHh].
Qed.

Lemma existsb_same_id_in l x :
  In x l -> existsb (fun m => same_id (m_id m) x) l = true.
Proof.
  intros H. apply existsb_exists. exists x. split; [exact H|].
  now apply same_id_true.
Qed.

Lemma existsb_same_id_out l x :
  ~ In (m_id x) (map m_id l) ->
  existsb (fun m => same_id (m_id m) x) l = false.
Proof.
  intros H. destruct (existsb _ l) eqn:Ex; [|reflexivity].
  apply existsb_exists in Ex. destruct Ex as (m & Hm & Hid).
  apply same_id_true in Hid. elim H. rewrite Hid. now apply in_map.
Qed.

(** With distinct ids, removing a suffix by id is truncation. *)
Lemma remove_suffix pre suf :
  NoDup (map m_id (pre ++ suf)) ->
  filter (fun x => negb (existsb (fun m => same_id (m_id m) x) suf))
         (pre ++ suf) = pre.
Proof.
  intros Hnd. rewrite filter_app.
  assert (H2 : filter (fun x => negb (existsb (fun m => same_id (m_id m) x) suf))
                 suf = []).
  { assert (G : forall l, (forall x, In x l -> In x suf) ->
        filter (fun x => negb (existsb (fun m => same_id (m_id m) x) suf)) l
        = []).
    { induction l as [|x l IH]; simpl; intros Hl; [reflexivity|].
      rewrite existsb_same_id_in by (apply Hl; now left). simpl.
      apply IH. intros y Hy. apply Hl. now right. }
    apply G. auto. }
  rewrite H2, app_nil_r. clear H2.
  rewrite map_app in Hnd.
  induction pre as [|x pre IH]; simpl in *; [reflexivity|].
  inversion Hnd as [|? ? Hx Hnd']; subst.
  rewrite existsb_same_id_out.
  - simpl. f_equal. apply IH, Hnd'.
  - intros Hin. apply Hx, in_or_app. now right.
Qed.

Lemma NoDup_ids_before a t b :
  NoDup (map m_id (a ++ t :: b)) ->
  forall x, In x a -> same_id (m_id t) x = false.
Proof.
  intros Hnd x Hx. apply same_id_false. intros Heq.
  rewrite map_app in Hnd. simpl in Hnd.
  apply NoDup_remove_2 in Hnd. apply Hnd, in_or_app. left.
  rewrite <- Heq. now apply in_map.
Qed.

Lemma last_cons {A} (x : A) l d : last (x :: l) d = last l x.
Proof.
  revert x d. induction l as [|y l IH]; intros x d; [reflexivity|].
  change (last (x :: y :: l) d) with (last (y :: l) d).
  now rewrite (IH y d), (IH y x).
Qed.

Lemma last_split (u : Message) mid :
  exists a, u :: mid = a ++ [last mid u] /\ List.length a = List.length mid.
Proof.
  revert u. induction mid as [|x mid IH]; intros u.
  - exists []. split; reflexivity.
  - destruct (IH x) as (a & Ha & Hl). exists (u :: a). split.
    + rewrite last_cons. simpl app. now rewrite <- Ha.
    + simpl. now rewrite Hl.
Qed.

(** C5: in a history with distinct ids, let [u] be the nearest user message
    at or before the target ([mid], between [u] and the target inclusive of
    the target, holds no user message).  [reprompt] removes [u] and every
    message after it, leaving the messages [pre] before [u], and then runs
    [prompt] as a fresh turn on [newPrompt] when one is given and on the
    original content of [u] otherwise (a null content is read as the empty
    string). *)
Theorem reprompt_truncates_and_reissues
    uid target newPrompt o r w pre u mid post :
  NoDup (map m_id (messages w)) ->
  messages w = pre ++ u :: mid ++ post ->
  is_user u = true ->
  Forall (fun m => is_user m = false) mid ->
  target_id target = m_id (last mid u) ->
  reprompt uid target newPrompt o r w =
    prompt uid
      (match newPrompt with Some s => s | None => content_text u end) o r
      {| messages := pre; calls := calls w |}.
Proof.
  intros Hnd Hm Hu Hmid Hid.
  destruct (last_split u mid) as (a & Ha & Hla).
  set (t := last mid u) in *.
  assert (Hm' : messages w = (pre ++ a) ++ t :: post).
  { rewrite Hm. change (u :: mid ++ post) with ((u :: mid) ++ post).
    rewrite Ha, <- !app_assoc. reflexivity. }
  assert (Hfi : findIndex (same_id (m_id t)) (messages w)
                = Some (List.length pre + List.length mid)).
  { rewrite Hm', <- Hla, <- length_app. apply findIndex_first.
    - apply NoDup_ids_before with (b := post). now rewrite <- Hm'.
    - now apply same_id_true. }
  assert (Hnth : nth_error (messages w) (List.length pre + List.length mid)
                 = Some t).
  { rewrite Hm', <- Hla, <- length_app.
    rewrite nth_error_app2 by lia. now rewrite Nat.sub_diag. }
  assert (Hk : nth_error (u :: mid) (List.length mid) = Some t).
  { rewrite Ha, <- Hla, nth_error_app2 by lia. now rewrite Nat.sub_diag. }
  unfold reprompt. fold (target_id target). rewrite Hid.
  unfold bind at 1, getMessages. rewrite Hfi, Hnth.
  unfold bind at 1, lift. rewrite Hm at 1.
  rewrite (@walk_back_found pre u mid post Hu Hmid _ _ Hk), Hu. cbn [negb].
  unfold bind at 1. cbv beta. rewrite forEach_removeMessage.
  unfold slice. rewrite Hm.
  rewrite skipn_app, skipn_all, Nat.sub_diag. simpl skipn. simpl app.
  rewrite remove_suffix by (now rewrite <- Hm).
  destruct newPrompt as [[|c s]|]; reflexivity.
Qed.

(** C6: [reprompt] throws the not-found error when no message of the
    history has the referenced id, and the no-previous-user-message error
    when no message at or before the target has role=user; in both cases it
    throws before anything is removed: the history (and the record of
    collaborator calls) is untouched. *)
Theorem reprompt_not_found uid target newPrompt o r w :
  (fresh (target_id target) (messages w) ->
   reprompt uid target newPrompt o r w =
     (w, Threw (JsError (not_found_message (target_id target))))) /\
  (forall pre t post,
     messages w = pre ++ t :: post ->
     fresh (target_id target) pre ->
     m_id t = target_id target ->
     Forall (fun m => is_user m = false) (pre ++ [t]) ->
     reprompt uid target newPrompt o r w =
       (w, Threw (JsError (no_previous_user_message (target_id target))))).
Proof.
  split.
  - intros Hf. unfold reprompt. fold (target_id target).
    unfold bind at 1, getMessages.
    rewrite findIndex_none; [reflexivity|].
    intros x Hx. apply same_id_false, Hf, Hx.
  - intros pre t post Hm Hf Ht Hall.
    assert (Hfi : findIndex (same_id (target_id target)) (messages w)
                  = Some (List.length pre)).
    { rewrite Hm. apply findIndex_first; [|now apply same_id_true].
      intros x Hx. apply same_id_false, Hf, Hx. }
    assert (Hnth : nth_error (messages w) (List.length pre) = Some t).
    { rewrite Hm, nth_error_app2 by lia. now rewrite Nat.sub_diag. }
    unfold reprompt. fold (target_id target).
    unfold bind at 1, getMessages. rewrite Hfi, Hnth.
    unfold bind at 1, lift.
    rewrite Forall_forall in Hall.
    destruct (@walk_back_off_front (messages w) (List.length pre) t)
      as (m & Hw & Hmu).
    + rewrite Hm, length_app. lia.
    + apply Hall, in_or_app. right. now left.
    + intros i m Hi Hn. apply Hall. apply in_or_app. left.
      rewrite Hm, nth_error_app1 in Hn by exact Hi.
      eapply nth_error_In, Hn.
    + rewrite Hw, Hmu. reflexivity.
Qed.

End Engine.

Arguments JsError {E} message.
Arguments JsTypeError {E}.
Arguments Returned {E A} a.
Arguments Threw {E A} e.
Arguments CallOnUserPrompt {E JsValue} m.
Arguments CallOnUserPromptError {E JsValue} e.
Arguments CallOnFunctionPrompt {E JsValue} m.
Arguments CallOnFunctionPromptError {E JsValue} e.
Arguments CallTransformFunctionResult {E JsValue} v.
Arguments CallModerateMessage {E JsValue} m.
Arguments CallGetAssistantResponse {E JsValue}.

(** *** Concrete conversations

    Collaborators throw numbered errors; function results are strings,
    numbers or a cyclic object that [JSON.stringify] rejects. *)

Inductive Val :=
| VString (s : jsstring)
| VNumber (n : N)
| VUndefined
| VCyclic.

Definition val_typeof_string (v : Val) : option jsstring :=
  match v with VString s => Some s | _ => None end.

Definition val_JSON_stringify (v : Val) : Result nat (option jsstring) :=
  match v with
  | VString s => Returned (Some (quote ++ s ++ quote))
  | VNumber n => Returned (Some (str (NilEmpty.string_of_uint (N.to_uint n))))
  | VUndefined => Returned None
  | VCyclic => Threw JsTypeError
  end.

Definition pass {A} (a : A) : Effect nat A := fun h => (h, Returned a).

Definition fail {A} (code : nat) : Effect nat A :=
  fun h => (h, Threw (Raised code)).

(** A dry run: the assistant message mirrors the content of the latest
    message and is appended to the history. *)
Definition mirror (uid : jsstring) : Effect nat Message :=
  fun h =>
    let m := {| m_id := uid; m_role := Rassistant;
                m_content := m_content (last h (userMessageOf [] []));
                m_name := None; m_flags := []; m_streaming := false |} in
    (h ++ [m], Returned m).

Definition dry_run : Collaborators nat Val unit unit :=
  {| onUserPrompt := fun _ => pass tt;
     onUserPromptError := fun _ => pass tt;
     onFunctionPrompt := fun _ => pass tt;
     onFunctionPromptError := fun _ => pass tt;
     transformFunctionResult := fun v => pass v;
     moderateMessage := fun _ => pass tt;
     getAssistantResponse := fun _ _ => mirror (str "a-next") |}.

(** Strict moderation flags every message: error 1. *)
Definition strict_flagged : Collaborators nat Val unit unit :=
  {| onUserPrompt := fun _ => pass tt;
     onUserPromptError := fun _ => pass tt;
     onFunctionPrompt := fun _ => pass tt;
     onFunctionPromptError := fun _ => pass tt;
     transformFunctionResult := fun v => pass v;
     moderateMessage := fun _ => fail 1;
     getAssistantResponse := fun _ _ => mirror (str "a-next") |}.

(** The completion service is down (error 1) and the error hooks of a
    plugin throw in turn (error 2). *)
Definition failing_error_hooks : Collaborators nat Val unit unit :=
  {| onUserPrompt := fun _ => pass tt;
     onUserPromptError := fun _ => fail 2;
     onFunctionPrompt := fun _ => pass tt;
     onFunctionPromptError := fun _ => fail 2;
     transformFunctionResult := fun v => pass v;
     moderateMessage := fun _ => pass tt;
     getAssistantResponse := fun _ _ => fail 1 |}.

(** A plugin transform that throws (error 3). *)
Definition failing_transform : Collaborators nat Val unit unit :=
  {| onUserPrompt := fun _ => pass tt;
     onUserPromptError := fun _ => pass tt;
     onFunctionPrompt := fun _ => pass tt;
     onFunctionPromptError := fun _ => pass tt;
     transformFunctionResult := fun _ => fail 3;
     moderateMessage := fun _ => pass tt;
     getAssistantResponse := fun _ _ => mirror (str "a-next") |}.

(** The completion service appends the assistant message it is streaming
    and fails before the stream ends (error 1). *)
Definition partial (uid : jsstring) : Message :=
  {| m_id := uid; m_role := Rassistant; m_content := Some (str "Good");
     m_name := None; m_flags := []; m_streaming := true |}.

Definition interrupted (uid : jsstring) : Effect nat Message :=
  fun h => (h ++ [partial uid], Threw (Raised 1)).

Definition interrupted_stream : Collaborators nat Val unit unit :=
  {| onUserPrompt := fun _ => pass tt;
     onUserPromptError := fun _ => pass tt;
     onFunctionPrompt := fun _ => pass tt;
     onFunctionPromptError := fun _ => pass tt;
     transformFunctionResult := fun v => pass v;
     moderateMessage := fun _ => pass tt;
     getAssistantResponse := fun _ _ => interrupted (str "a-next") |}.

Definition message (id : string) (role : Role) (content : string) : Message :=
  {| m_id := str id; m_role := role; m_content := Some (str content);
     m_name := None; m_flags := []; m_streaming := false |}.

Definition sys := message "m0" Rsystem "Be brief.".
Definition user1 := message "m1" Ruser "Hello!".
Definition asst1 := message "m2" Rassistant "Hi".
Definition user2 := message "m3" Ruser "How are you?".
Definition asst2 := message "m4" Rassistant "Good, and you?".

(** The history [sys, user1, asst1, user2, asst2], before any call. *)
Definition two_turns : World nat Val :=
  {| messages := [sys; user1; asst1; user2; asst2]; calls := [] |}.

Ltac ids_differ :=
  let H := fresh in intro H; vm_compute in H; discriminate H.

Ltac fresh_in_history :=
  let m := fresh in let H := fresh in
  intros m H; simpl in H;
  repeat (destruct H as [H|H]; [subst m; ids_differ|]); destruct H.

Ltac distinct_ids :=
  vm_compute;
  repeat (constructor;
          [ simpl; intuition discriminate | ]);
  constructor.

(** Strict moderation rejects the prompt, and likewise a function result:
    the pending message is rolled back and the moderation error reaches the
    caller. *)
Lemma failed_turn_rolls_back_witness :
  (snd (prompt strict_flagged (str "m5") (str "Bye") None None two_turns)
     = Threw (Raised 1) /\
   messages
     (fst (prompt strict_flagged (str "m5") (str "Bye") None None two_turns))
     = messages two_turns) /\
  (snd (functionPrompt val_typeof_string val_JSON_stringify strict_flagged
          (str "m5") (str "clock") (VNumber 7) None None two_turns)
     = Threw (Raised 1) /\
   messages
     (fst (functionPrompt val_typeof_string val_JSON_stringify strict_flagged
             (str "m5") (str "clock") (VNumber 7) None None two_turns))
     = messages two_turns).
Proof.
  split.
  - destruct (proj1 (failed_turn_rolls_back val_typeof_string
                       val_JSON_stringify strict_flagged)
                (str "m5") (str "Bye") None None two_turns
                _ _ _ eq_refl eq_refl) as (Hthrow & _ & Hsame).
    split; [exact Hthrow|].
    apply Hsame; [fresh_in_history | reflexivity].
  - destruct (proj2 (failed_turn_rolls_back val_typeof_string
                       val_JSON_stringify strict_flagged)
                (str "m5") (str "clock") (VNumber 7) None None two_turns
                _ _ (Some (str "7")) _ _ _ eq_refl eq_refl eq_refl eq_refl)
      as (Hthrow & _ & Hsame).
    split; [exact Hthrow|].
    apply Hsame; [fresh_in_history | reflexivity].
Defined.

(** C1, as stated, fails, in three ways.  The completion fails with
    error 1 and the [onUserPromptError] hook throws error 2: [prompt] ends
    with the user message still in the history and with error 2.  The
    completion appends a partial assistant message and fails with error 1,
    the error hook returning: [prompt] rethrows error 1 and removes the
    user message, and the partial message stays.  Moderation fails and the
    id of the new user message is that of an earlier message: the removal
    by id takes both. *)
Lemma failed_turn_history_not_always_restored :
  ((exists w2,
      userStages failing_error_hooks (userMessageOf (str "m5") (str "Bye"))
        None None (appended two_turns (userMessageOf (str "m5") (str "Bye")))
      = (w2, Threw (Raised 1))) /\
   snd (prompt failing_error_hooks (str "m5") (str "Bye") None None two_turns)
     = Threw (Raised 2) /\
   messages
     (fst (prompt failing_error_hooks (str "m5") (str "Bye") None None
             two_turns))
     = messages two_turns ++ [userMessageOf (str "m5") (str "Bye")] /\
   ~ (messages
        (fst (prompt failing_error_hooks (str "m5") (str "Bye") None None
                two_turns))
        = messages two_turns /\
      snd (prompt failing_error_hooks (str "m5") (str "Bye") None None
             two_turns)
        = Threw (Raised 1))) /\
  (snd (prompt interrupted_stream (str "m5") (str "Bye") None None two_turns)
     = Threw (Raised 1) /\
   onUserPromptError interrupted_stream (Raised 1)
     (messages two_turns ++ [userMessageOf (str "m5") (str "Bye")]
        ++ [partial (str "a-next")])
     = (messages two_turns ++ [userMessageOf (str "m5") (str "Bye")]
          ++ [partial (str "a-next")],
        Returned tt) /\
   messages
     (fst (prompt interrupted_stream (str "m5") (str "Bye") None None
             two_turns))
     = messages two_turns ++ [partial (str "a-next")] /\
   messages
     (fst (prompt interrupted_stream (str "m5") (str "Bye") None None
             two_turns))
     <> messages two_turns) /\
  (snd (prompt strict_flagged (str "m3") (str "Bye") None None two_turns)
     = Threw (Raised 1) /\
   messages
     (fst (prompt strict_flagged (str "m3") (str "Bye") None None two_turns))
     = [sys; user1; asst1; asst2] /\
   messages
     (fst (prompt strict_flagged (str "m3") (str "Bye") None None two_turns))
     <> messages two_turns).
Proof.
  split; [|split].
  - split; [eexists; reflexivity|].
    split; [reflexivity|]. split; [reflexivity|].
    intros [_ H]. vm_compute in H. discriminate H.
  - split; [reflexivity|]. split; [reflexivity|]. split; [reflexivity|].
    intros H. apply (f_equal (@List.length _)) in H.
    vm_compute in H. discriminate H.
  - split; [reflexivity|]. split; [reflexivity|].
    intros H. apply (f_equal (@List.length _)) in H.
    vm_compute in H. discriminate H.
Qed.

(** The error hook throws in turn: no rollback, and the hook's error
    replaces the original one, for a user turn and for a function turn. *)
Lemma error_hook_precedes_rollback_witness :
  prompt failing_error_hooks (str "m5") (str "Bye") None None two_turns =
    ({| messages :=
          messages two_turns ++ [userMessageOf (str "m5") (str "Bye")];
        calls :=
          [CallOnUserPrompt (userMessageOf (str "m5") (str "Bye"));
           CallModerateMessage (userMessageOf (str "m5") (str "Bye"));
           CallGetAssistantResponse;
           CallOnUserPromptError (Raised 1)] |},
     Threw (Raised 2)) /\
  functionPrompt val_typeof_string val_JSON_stringify failing_error_hooks
    (str "m5") (str "clock") (VNumber 7) None None two_turns =
    ({| messages :=
          messages two_turns
            ++ [functionMessageOf (str "m5") (Some (str "7")) (str "clock")];
        calls :=
          [CallTransformFunctionResult (VNumber 7);
           CallOnFunctionPrompt
             (functionMessageOf (str "m5") (Some (str "7")) (str "clock"));
           CallModerateMessage
             (functionMessageOf (str "m5") (Some (str "7")) (str "clock"));
           CallGetAssistantResponse;
           CallOnFunctionPromptError (Raised 1)] |},
     Threw (Raised 2)).
Proof.
  split.
  - exact (proj2 (proj1 (error_hook_precedes_rollback val_typeof_string
                           val_JSON_stringify failing_error_hooks)
                    (str "m5") (str "Bye") None None two_turns
                    _ (Raised 1) _ eq_refl)
                 (Raised 2) eq_refl).
  - exact (proj2 (proj2 (error_hook_precedes_rollback val_typeof_string
                           val_JSON_stringify failing_error_hooks)
                    (str "m5") (str "clock") (VNumber 7) None None two_turns
                    _ _ _ _ (Raised 1) _ eq_refl eq_refl eq_refl)
                 (Raised 2) eq_refl).
Defined.

(** C2, as stated, fails: the [onFunctionPromptError] hook throws and
    thereby blocks the rollback; the function message stays in the history
    and the caller receives the hook's error, not the original one. *)
Lemma function_error_hook_blocks_rollback :
  (exists w2,
     functionStages failing_error_hooks
       (functionMessageOf (str "m5") (Some (str "7")) (str "clock")) None None
       (appended
          (called two_turns (CallTransformFunctionResult (VNumber 7))
                  (messages two_turns))
          (functionMessageOf (str "m5") (Some (str "7")) (str "clock")))
     = (w2, Threw (Raised 1))) /\
  In (functionMessageOf (str "m5") (Some (str "7")) (str "clock"))
     (messages
        (fst (functionPrompt val_typeof_string val_JSON_stringify
                failing_error_hooks (str "m5") (str "clock") (VNumber 7)
                None None two_turns))) /\
  snd (functionPrompt val_typeof_string val_JSON_stringify
         failing_error_hooks (str "m5") (str "clock") (VNumber 7)
         None None two_turns)
    = Threw (Raised 2) /\
  Threw (A := Message) (Raised 2) <> Threw (Raised 1).
Proof.
  split; [eexists; reflexivity|].
  split; [vm_compute; tauto|].
  split; [reflexivity | discriminate].
Qed.

(** [reprompt(asst2)] on [sys, user1, asst1, user2, asst2] removes
    [user2, asst2] and prompts again with the content of [user2]. *)
Lemma reprompt_truncates_and_reissues_witness :
  reprompt dry_run (str "m5") (inr asst2) None None None two_turns =
  prompt dry_run (str "m5") (str "How are you?") None None
    {| messages := [sys; user1; asst1]; calls := [] |}.
Proof.
  apply (@reprompt_truncates_and_reissues _ _ _ _ dry_run (str "m5")
           (inr asst2) None None None two_turns
           [sys; user1; asst1] user2 [asst2] []).
  - distinct_ids.
  - reflexivity.
  - reflexivity.
  - repeat constructor.
  - reflexivity.
Defined.

(** [reprompt(asst1, "new text")] on the same history removes
    [user1, asst1, user2, asst2] and issues "new text" as a new user
    message, which the dry run answers. *)
Example reprompt_with_new_text :
  reprompt dry_run (str "m5") (inr asst1) (Some (str "new text")) None None
    two_turns =
  prompt dry_run (str "m5") (str "new text") None None
    {| messages := [sys]; calls := [] |} /\
  messages
    (fst (reprompt dry_run (str "m5") (inr asst1) (Some (str "new text"))
            None None two_turns)) =
  [sys; message "m5" Ruser "new text"; message "a-next" Rassistant "new text"].
Proof. split; reflexivity. Qed.

(** An unknown id, and a target (the system message) with no user message
    at or before it: both calls throw and leave the conversation as it
    was. *)
Lemma reprompt_not_found_witness :
  reprompt dry_run (str "m5") (inl (str "m9")) None None None two_turns =
    (two_turns, Threw (JsError (not_found_message (str "m9")))) /\
  reprompt dry_run (str "m5") (inr sys) None None None two_turns =
    (two_turns, Threw (JsError (no_previous_user_message (str "m0")))).
Proof.
  split.
  - apply (proj1 (reprompt_not_found dry_run (str "m5") (inl (str "m9"))
                    None None None two_turns)).
    fresh_in_history.
  - apply (proj2 (reprompt_not_found dry_run (str "m5") (inr sys)
                    None None None two_turns)
             [] sys [user1; asst1; user2; asst2]).
    + reflexivity.
    + intros m [].
    + reflexivity.
    + repeat constructor.
Defined.

(** A number is stored as its JSON text; [undefined] has none and the
    message is appended without content. *)
Lemma functionPrompt_appends_encoded_result_witness :
  functionPrompt val_typeof_string val_JSON_stringify dry_run
    (str "m5") (str "clock") (VNumber 42) None None two_turns =
  try_catch
    (functionStages dry_run
       (functionMessageOf (str "m5") (Some (str "42")) (str "clock")) None None)
    (functionRollback dry_run
       (functionMessageOf (str "m5") (Some (str "42")) (str "clock")))
    {| messages :=
         messages two_turns
           ++ [functionMessageOf (str "m5") (Some (str "42")) (str "clock")];
       calls := [CallTransformFunctionResult (VNumber 42)] |} /\
  functionPrompt val_typeof_string val_JSON_stringify dry_run
    (str "m5") (str "clock") VUndefined None None two_turns =
  try_catch
    (functionStages dry_run
       (functionMessageOf (str "m5") None (str "clock")) None None)
    (functionRollback dry_run
       (functionMessageOf (str "m5") None (str "clock")))
    {| messages :=
         messages two_turns
           ++ [functionMessageOf (str "m5") None (str "clock")];
       calls := [CallTransformFunctionResult VUndefined] |}.
Proof.
  split.
  - apply (proj1 (@functionPrompt_appends_encoded_result _ _ _ _
                    val_typeof_string val_JSON_stringify dry_run
                    (str "m5") (str "clock") (VNumber 42) None None two_turns
                    (messages two_turns) (VNumber 42) eq_refl)
             (Some (str "42")) eq_refl).
  - apply (proj1 (@functionPrompt_appends_encoded_result _ _ _ _
                    val_typeof_string val_JSON_stringify dry_run
                    (str "m5") (str "clock") VUndefined None None two_turns
                    (messages two_turns) VUndefined eq_refl)
             None eq_refl).
Defined.

(** C8, as stated, fails: for a cyclic result [JSON.stringify] throws, and
    [functionPrompt] ends there.  No role=function message is appended,
    and neither the hook nor moderation nor the completion runs.  The same
    holds when a plugin's transform throws (error 3). *)
Lemma function_message_not_always_appended :
  (functionPrompt val_typeof_string val_JSON_stringify dry_run
     (str "m5") (str "clock") VCyclic None None two_turns =
     ({| messages := messages two_turns;
         calls := [CallTransformFunctionResult VCyclic] |},
      Threw JsTypeError) /\
   Forall (fun m => m_role m <> Rfunction)
     (messages
        (fst (functionPrompt val_typeof_string val_JSON_stringify dry_run
                (str "m5") (str "clock") VCyclic None None two_turns)))) /\
  (functionPrompt val_typeof_string val_JSON_stringify failing_transform
     (str "m5") (str "clock") (VNumber 7) None None two_turns =
     ({| messages := messages two_turns;
         calls := [CallTransformFunctionResult (VNumber 7)] |},
      Threw (Raised 3)) /\
   Forall (fun m => m_role m <> Rfunction)
     (messages
        (fst (functionPrompt val_typeof_string val_JSON_stringify
                failing_transform (str "m5") (str "clock") (VNumber 7)
                None None two_turns)))).
Proof.
  split; (split; [reflexivity|]);
    vm_compute; repeat constructor; discriminate.
Qed.

Example functionPrompt_string_passes_through :
  map m_content
    (messages
       (fst (functionPrompt val_typeof_string val_JSON_stringify dry_run
               (str "m5") (str "clock") (VString (str "noon")) None None
               {| messages := []; calls := [] |}))) =
  [Some (str "noon"); Some (str "noon")].
Proof. reflexivity. Qed.

(** The transform throws error 3: nothing is appended and no other
    collaborator runs. *)
Lemma transform_failure_propagates_witness :
  functionPrompt val_typeof_string val_JSON_stringify failing_transform
    (str "m5") (str "clock") (VNumber 42) None None two_turns =
  ({| messages := messages two_turns;
      calls := [CallTransformFunctionResult (VNumber 42)] |},
   Threw (Raised 3)).
Proof.
  apply (@transform_failure_propagates _ _ _ _ val_typeof_string
           val_JSON_stringify failing_transform (str "m5") (str "clock")
           (VNumber 42) None None two_turns (messages two_turns) (Raised 3)
           eq_refl).
Defined.

End Conversation.

(** ** Conversation.ts: serialization

    [toJSON], [fromJSON] and the constructor are in the sources, and so is
    the class [ConversationConfig] they use; the other classes they
    delegate to are not. *)
Module Persistence.
Import Js.

(** What a call ends with: a value, or the engine's [TypeError] on
    calling something that is not a function. *)
Inductive Thrown := JsTypeError.

Inductive Result (A : Type) :=
| Returned (a : A)
| Threw (e : Thrown).
Arguments Returned {A} a.
Arguments Threw {A} e.

Section Persistence.

Variable Knobs : Type.
Variable DEFAULT_CONTEXT : jsstring.
Variable DEFAULT_DRY : bool.
Variable DEFAULT_DISABLEMODERATION : ConversationConfig.DisableModeration.
Variable DEFAULT_MODEL : jsstring.
Variable DEFAULT_STREAM : bool.

(** The serializable state of a plugin, and the JSON of the request options
    and of the callable-function registry. *)
Variables Data RequestOptionsModel CallableFunctionsModel : Type.

(** The request options and the registry of a conversation constructed
    without them. *)
Variable no_requestOptions : RequestOptionsModel.
Variable no_callableFunctions : CallableFunctionsModel.

Definition ConfigModel := ConversationConfig.ConversationConfigParameters Knobs.

(** [ConversationModel]: the persisted shape
    [{ id, config, requestOptions, callableFunctions, history, pluginsData }],
    which is also what the constructor destructures. *)
Record ConversationModel := {
  j_id : option jsstring;
  j_config : option ConfigModel;
  j_requestOptions : option RequestOptionsModel;
  j_callableFunctions : option CallableFunctionsModel;
  j_history : option (list Conversation.Message);
  j_pluginsData : option (list (jsstring * Data))
}.

(** Modelled from the spec: [ConversationPluginService.ts] is not part of
    the sources.  A plugin is a named bundle of optional hooks; in [onInit]
    it may seed its private state from the data persisted under its name
    ([plugin_onInit] gives the state it starts with), and it may transform
    the JSON of the conversation. *)
Record Plugin := {
  plugin_name : jsstring;
  plugin_onInit : option Data -> option Data;
  plugin_transformConversationJson :
    option (ConversationModel -> ConversationModel)
}.

(** [ConversationOptions]: the model plus the plugins. *)
Record ConversationOptions := {
  o_json : ConversationModel;
  o_plugins : option (list Plugin)
}.

(** Modelled from the spec: the plugin pipeline holds its plugins in order,
    each with its current private state. *)
Definition PluginService := list (Plugin * option Data).

(** Modelled from the spec: [new ConversationPluginService(plugins)]; no
    plugin has state before [onInit]. *)
Definition new_PluginService (plugins : list Plugin) : PluginService :=
  map (fun p => (p, None)) plugins.

(** [pluginsData[name]] *)
Fixpoint lookup (name : jsstring) (data : list (jsstring * Data))
  : option Data :=
  match data with
  | [] => None
  | (k, d) :: data' => if jsstring_eqb k name then Some d else lookup name data'
  end.

(** Modelled from the spec: [onInit(context, persistedPluginsData)] lets
    each plugin, in order, seed its state from the data persisted under its
    own name. *)
Definition onInit (service : PluginService)
    (pluginsData : option (list (jsstring * Data))) : PluginService :=
  map (fun ps : Plugin * option Data =>
         let (p, _) := ps in
         (p, plugin_onInit p
               (lookup (plugin_name p)
                       (ConversationConfig.or_default [] pluginsData))))
      service.

(** Modelled from the spec: [getPluginsData()] maps the name of each plugin
    of the pipeline that has state to that state. *)
Fixpoint getPluginsData (service : PluginService) : list (jsstring * Data) :=
  match service with
  | [] => []
  | (p, Some d) :: rest => (plugin_name p, d) :: getPluginsData rest
  | (_, None) :: rest => getPluginsData rest
  end.

(** Modelled from the spec: [transformConversationJson(json)] pipes the
    JSON through the plugins' transforms, in order. *)
Definition transformConversationJson (service : PluginService)
    (json : ConversationModel) : ConversationModel :=
  fold_left
    (fun j (ps : Plugin * option Data) =>
       match plugin_transformConversationJson (fst ps) with
       | Some f => f j
       | None => j
       end)
    service json.

(** Modelled from the spec: [conversationSchema.parse] validates a value
    against the persisted schema; a value of the model type is valid and
    comes back as it is. *)
Definition conversationSchema_parse (json : ConversationModel)
  : ConversationModel := json.

(** [this.config.toJSON]: what looking up [toJSON] on an instance of
    [ConversationConfig] gives.  The class declares fields, the accessors
    [apiKey], [context], [dry], [isModerationEnabled], [isModerationStrict],
    [isModerationSoft] and [chatCompletionConfig], and no method; it extends
    no class, and its constructor assigns the declared fields only.  The
    lookup gives [undefined], here [None]. *)
Definition config_toJSON_lookup
  : option (ConversationConfig.t Knobs -> ConfigModel) := None.

(** [f.call(this)] for what a property lookup gave. *)
Definition call_method {A B : Type} (f : option (A -> B)) (this : A)
  : Result B :=
  match f with
  | Some method => Returned (method this)
  | None => Threw JsTypeError
  end.

(** The plugin-service object read as the parameter object of the
    [ConversationConfig] constructor, that is, the properties that
    constructor destructures from it ([ConversationPluginService.ts] is not
    part of the sources). *)
Variable service_as_parameters : PluginService -> ConfigModel.

(** The object: [id] and the owned parts.  Modelled from the spec: the
    request options, the callable-function registry and the history hold
    what their JSON holds ([ConversationRequestOptions.ts],
    [ConversationCallableFunctions.ts] and [ConversationHistory.ts] are not
    part of the sources). *)
Record Conversation := {
  id : jsstring;
  config : ConversationConfig.t Knobs;
  requestOptions : RequestOptionsModel;
  history : list Conversation.Message;
  callableFunctions : CallableFunctionsModel;
  pluginService : PluginService
}.

(** The constructor; [globalPlugins] is the static [Conversation.globalPlugins]
    at the time of the call and [uuid] the id [uuid()] would generate.  The
    config is [new ConversationConfig(this.pluginService, config)]: the
    constructor of [ConversationConfig] has one parameter, which receives
    the plugin service; the second argument is bound to nothing. *)
Definition new (globalPlugins : list Plugin) (uuid : jsstring)
    (options : ConversationOptions) : Conversation :=
  let json := o_json options in
  let id := ConversationConfig.or_default uuid (j_id json) in
  let plugins := ConversationConfig.or_default [] (o_plugins options) in
  let pluginService := new_PluginService (globalPlugins ++ plugins) in
  {| id := id;
     config :=
       ConversationConfig.new DEFAULT_CONTEXT DEFAULT_DRY
         DEFAULT_DISABLEMODERATION DEFAULT_MODEL DEFAULT_STREAM
         (service_as_parameters pluginService);
     requestOptions :=
       ConversationConfig.or_default no_requestOptions (j_requestOptions json);
     history := ConversationConfig.or_default [] (j_history json);
     callableFunctions :=
       ConversationConfig.or_default no_callableFunctions
         (j_callableFunctions json);
     pluginService := onInit pluginService (j_pluginsData json) |}.

(** [Conversation.fromJSON(json, plugins?)] *)
Definition fromJSON (globalPlugins : list Plugin) (uuid : jsstring)
    (json : ConversationModel) (plugins : option (list Plugin))
  : Conversation :=
  let conversationJson := conversationSchema_parse json in
  let conversationOptions :=
    {| o_json := conversationJson; o_plugins := plugins |} in
  new globalPlugins uuid conversationOptions.

(** [toJSON()].  The properties of the object literal are evaluated in
    source order: [this.id], then the call [this.config.toJSON()]. *)
Definition toJSON (c : Conversation) : Result ConversationModel :=
  let id := id c in
  match call_method config_toJSON_lookup (config c) with
  | Threw e => Threw e
  | Returned config_json =>
      let json :=
        {| j_id := Some id;
           j_config := Some config_json;
           j_requestOptions := Some (requestOptions c);
           j_callableFunctions := Some (callableFunctions c);
           j_history := Some (history c);
           j_pluginsData := Some (getPluginsData (pluginService c)) |} in
      Returned
        (conversationSchema_parse
           (transformConversationJson (pluginService c) json))
  end.



End Persistence.

(** *** A saved conversation

    Plugin state is a number; request options and the registry are empty. *)

Definition PluginOf := Plugin unit nat unit unit.

(** A plugin that keeps a counter and restores it from persisted data. *)
Definition memory : PluginOf :=
  {| plugin_name := str "memory";
     plugin_onInit := fun persisted => persisted;
     plugin_transformConversationJson := None |}.

(** The JSON of a conversation with a key, set to run for real. *)
Definition saved : ConversationModel unit nat unit unit :=
  {| j_id := Some (str "c1");
     j_config := Some ConversationConfig.with_key_and_padding;
     j_requestOptions := None;
     j_callableFunctions := None;
     j_history :=
       Some [Conversation.sys; Conversation.user1; Conversation.asst1];
     j_pluginsData := Some [(str "memory", 7)] |}.

(** [Conversation.fromJSON] with no global plugins registered, for a plugin
    service that has none of the properties the config constructor
    reads. *)
Definition restore :=
  fromJSON ConversationConfig.documented_context false
    ConversationConfig.DMfalse (str "gpt-3.5-turbo") false tt tt
    (fun _ => ConversationConfig.no_parameters)
    (@nil PluginOf) (str "c-new").

(** The conversation rebuilt from [saved] has its id, its messages and its
    plugin data; it has lost the key and runs dry; and serializing it
    throws. *)
Example saved_conversation_loses_its_config :
  id (restore saved (Some [memory])) = str "c1" /\
  history (restore saved (Some [memory]))
    = [Conversation.sys; Conversation.user1; Conversation.asst1] /\
  getPluginsData (pluginService (restore saved (Some [memory])))
    = [(str "memory", 7)] /\
  ConversationConfig.apiKey (config (restore saved (Some [memory])))
    = Some [] /\
  ConversationConfig.dry (config (restore saved (Some [memory])))
    = Some true /\
  toJSON (restore saved (Some [memory])) = Threw JsTypeError.
Proof. repeat split. Qed.

End Persistence.

(** ** ConversationConfig.ts: laws of the accessors

    How the constructor and the accessors of a config behave beyond the
    three invariants above: what the constructor stores, how dry mode
    follows the key, and the [chatCompletionConfig] view. *)
Module ConfigLaws.
Import Js ConversationConfig.

Section Laws.

Variable Knobs : Type.
Variable DEFAULT_CONTEXT : jsstring.
Variable DEFAULT_DRY : bool.
Variable DEFAULT_DISABLEMODERATION : DisableModeration.
Variable DEFAULT_MODEL : jsstring.
Variable DEFAULT_STREAM : bool.

Let Config := t Knobs.
Let Parameters := ConversationConfigParameters Knobs.

(** The constructor at the defaults of this section. *)
Definition make (p : Parameters) : Config :=
  new DEFAULT_CONTEXT DEFAULT_DRY DEFAULT_DISABLEMODERATION DEFAULT_MODEL
      DEFAULT_STREAM p.

(** A config a program can hold: constructed, then assigned to. *)
Definition reachable (p : Parameters) (ops : list Assignment)
  : Config :=
  assign_all (make p) ops.

(** [get chatCompletionConfig]: the request properties, without [messages];
    the eight copied properties travel together. *)
Record ChatCompletionConfig := {
  cc_apiKey : option jsstring;
  cc_model : jsstring;
  cc_stream : bool;
  cc_knobs : Knobs
}.

Definition chatCompletionConfig (c : Config) : ChatCompletionConfig :=
  {| cc_apiKey := apiKey c;
     cc_model := model c;
     cc_stream := stream c;
     cc_knobs := knobs c |}.

(** The parameter object
    [{ context: c.context, dry: c.dry,
       disableModeration: c.disableModeration, ...c.chatCompletionConfig }]
    read off a config through its public properties. *)
Definition parameters_of (c : Config) : Parameters :=
  let cc := chatCompletionConfig c in
  {| p_context := context c;
     p_dry := dry c;
     p_disableModeration := Some (disableModeration c);
     p_apiKey := cc_apiKey cc;
     p_model := Some (cc_model cc);
     p_stream := Some (cc_stream cc);
     p_knobs := cc_knobs cc |}.

(** Code units that are all white space. *)
Definition blank (s : jsstring) : Prop := Forall (fun c => is_ws c = true) s.

Lemma reachable_settled p ops : settled (reachable p ops).
Proof. apply assign_all_settled, new_settled. Qed.

Lemma trimStart_strips_blank s :
  exists lead, blank lead /\ s = lead ++ trimStart s.
Proof.
  induction s as [|c s (lead & Hb & Hs)]; simpl.
  - exists []. split; [constructor | reflexivity].
  - destruct (is_ws c) eqn:E.
    + exists (c :: lead). split; [now constructor | simpl; now f_equal].
    + exists []. split; [constructor | reflexivity].
Qed.

Lemma blank_rev s : blank s -> blank (rev s).
Proof.
  unfold blank. rewrite !Forall_forall. intros H x Hx.
  apply H, in_rev, Hx.
Qed.

Lemma trimEnd_strips_blank s :
  exists trail, blank trail /\ s = trimEnd s ++ trail.
Proof.
  unfold trimEnd. destruct (trimStart_strips_blank (rev s)) as (w & Hb & Hw).
  exists (rev w). split; [now apply blank_rev|].
  rewrite <- rev_app_distr, <- Hw, rev_involutive. reflexivity.
Qed.

Lemma trim_strips_blank s :
  exists lead trail, blank lead /\ blank trail /\ s = lead ++ trim s ++ trail.
Proof.
  destruct (trimStart_strips_blank s) as (lead & Hl & Hs).
  destruct (trimEnd_strips_blank (trimStart s)) as (trail & Ht & Hs').
  exists lead, trail. repeat split; try assumption.
  unfold trim. rewrite <- Hs'. exact Hs.
Qed.

(** The object the constructor builds. *)
Lemma make_unfolded (p : Parameters) :
  make p =
  {| model := or_default DEFAULT_MODEL (p_model p);
     stream := or_default DEFAULT_STREAM (p_stream p);
     knobs := p_knobs p;
     _apiKey := Some (or_default [] (p_apiKey p));
     disableModeration :=
       or_default DEFAULT_DISABLEMODERATION (p_disableModeration p);
     _context := Some (trim (or_default DEFAULT_CONTEXT (p_context p)));
     _dry := Some (or_default DEFAULT_DRY (p_dry p)
                   || negb (truthy (or_default [] (p_apiKey p)))) |}.
Proof.
  unfold make, new, set_context, set_dry, set_apiKey, with_context, with_dry,
    with_apiKey, dry, apiKey. simpl.
  rewrite trim_idempotent.
  destruct (or_default DEFAULT_DRY (p_dry p)),
    (or_default [] (p_apiKey p)); reflexivity.
Qed.

(** X1: what a freshly constructed config shows: the key is the given one
    or the empty string, never [undefined]; dry mode is the requested one
    (or the default), except that it is on whenever the key is empty; the
    context is the given one (or the default) trimmed once; the moderation
    mode and the request properties are the given ones or their defaults. *)
Theorem constructor_closed_form (p : Parameters) :
  apiKey (make p) = Some (or_default [] (p_apiKey p)) /\
  dry (make p) = Some (or_default DEFAULT_DRY (p_dry p)
                       || negb (truthy (or_default [] (p_apiKey p)))) /\
  context (make p) = Some (trim (or_default DEFAULT_CONTEXT (p_context p))) /\
  disableModeration (make p)
    = or_default DEFAULT_DISABLEMODERATION (p_disableModeration p) /\
  chatCompletionConfig (make p) =
    {| cc_apiKey := Some (or_default [] (p_apiKey p));
       cc_model := or_default DEFAULT_MODEL (p_model p);
       cc_stream := or_default DEFAULT_STREAM (p_stream p);
       cc_knobs := p_knobs p |}.
Proof.
  unfold chatCompletionConfig. rewrite make_unfolded.
  repeat split.
Qed.

(** X2: Assigning a key to a config a program holds stores the key, turns dry
    mode on when the key is empty, never turns it off, and touches nothing
    else. *)
Theorem apiKey_assignment_law p ops (k : jsstring) :
  exists d,
    dry (reachable p ops) = Some d /\
    set_apiKey (reachable p ops) k =
      with_dry (with_apiKey (reachable p ops) (Some k))
               (Some (d || negb (truthy k))).
Proof.
  destruct (reachable_settled p ops) as (_ & _ & (d & Hd & _)).
  exists d. split; [exact Hd|].
  unfold set_apiKey, set_dry, dry, apiKey, with_dry, with_apiKey in *.
  simpl. rewrite Hd. simpl.
  destruct d, k; reflexivity.
Qed.

(** X3: Once dry mode is on, the only assignment that turns it off is
    [dry = false] made while a key is present. *)
Theorem leaving_dry_mode p ops (a : Assignment) :
  dry (reachable p ops) = Some true ->
  (dry (assign (reachable p ops) a) = Some false <->
   a = AssignDry false /\ has_credential (reachable p ops)).
Proof.
  intros Hd.
  destruct (reachable_settled p ops) as ([k Hk] & _ & _).
  pose proof (truthy_credential (reachable p ops)) as Hc.
  set (c := reachable p ops) in *.
  unfold dry, apiKey in *.
  destruct a as [k'|[|]|s|dm|m|b]; simpl;
    unfold set_apiKey, set_dry, set_context, with_dry, with_apiKey,
      with_context, with_disableModeration, with_model, with_stream,
      dry, apiKey;
    simpl; rewrite ?Hd; simpl.
  - split; [|intros [H _]; discriminate H].
    destruct k'; simpl; discriminate.
  - split; [discriminate | intros [H _]; discriminate H].
  - rewrite Hk in *. simpl in *. destruct (truthy k) eqn:Ek; simpl.
    + split; [intros _; split; [reflexivity | now apply Hc] | reflexivity].
    + split; [discriminate|]. intros [_ H]. apply Hc in H. discriminate H.
  - split; [congruence | intros [H _]; discriminate H].
  - split; [congruence | intros [H _]; discriminate H].
  - split; [congruence | intros [H _]; discriminate H].
  - split; [congruence | intros [H _]; discriminate H].
Qed.

(** X4: The two moderation modes exclude each other, and moderation is off
    exactly when there is no key or [disableModeration] is [true]. *)
Theorem moderation_modes (c : Config) :
  ~ (isModerationStrict c = true /\ isModerationSoft c = true) /\
  (isModerationEnabled c = false <->
   ~ has_credential c \/ disableModeration c = DMtrue).
Proof.
  pose proof (truthy_credential c) as Hc.
  unfold isModerationEnabled, isModerationStrict, isModerationSoft.
  destruct (truthy_opt truthy (apiKey c)); simpl.
  - assert (Hk : has_credential c) by now apply Hc.
    destruct (disableModeration c); simpl; split;
      try (intros [H1 H2]; discriminate);
      split; try discriminate; try (intros _; now right);
      intros [H|H]; try discriminate H; now elim H.
  - assert (Hk : ~ has_credential c) by (intros H; apply Hc in H; discriminate).
    split; [intros [H _]; discriminate H|].
    split; [intros _; now left | reflexivity].
Qed.

(** X5: A config a program holds is rebuilt by the constructor from its own
    public properties: [new ConversationConfig({ context, dry,
    disableModeration, ...chatCompletionConfig })] is a copy. *)
Theorem constructor_copies p ops :
  make (parameters_of (reachable p ops)) = reachable p ops.
Proof.
  destruct (reachable_settled p ops)
    as ([k Hk] & (s & Hs & Hclean) & (d & Hd & Hinv)).
  rewrite make_unfolded.
  unfold parameters_of, chatCompletionConfig.
  unfold apiKey, context, dry in *.
  destruct (reachable p ops) as [m st kn ak dm cx dr]. simpl in *.
  subst ak cx dr. unfold or_default. rewrite (trim_fixed Hclean).
  assert (Hforce : d || negb (truthy k) = d).
  { destruct d; [reflexivity|]. destruct k as [|x k]; [|reflexivity].
    specialize (Hinv eq_refl). discriminate. }
  now rewrite Hforce.
Qed.

(** X6: Assigning a context keeps everything but outer white space: the given
    string is the stored one between two runs of white space, and the
    stored one has no outer white space left. *)
Theorem context_assignment_keeps_content (c : Config) (s : jsstring) :
  exists stored lead trail,
    context (set_context c s) = Some stored /\
    s = lead ++ stored ++ trail /\
    blank lead /\ blank trail /\ no_outer_whitespace stored.
Proof.
  destruct (trim_strips_blank s) as (lead & trail & Hl & Ht & Hs).
  exists (trim s), lead, trail. repeat split; try assumption;
    apply trim_clean.
Qed.

(** X7: Assigning the same value twice is assigning it once. *)
Theorem assignment_idempotent (c : Config) (a : Assignment) :
  assign (assign c a) a = assign c a.
Proof.
  destruct c as [m st kn ak dm cx dr].
  destruct a as [k|d|s|dm'|m'|b]; unfold assign;
    unfold set_apiKey, set_dry, set_context, with_dry, with_apiKey,
      with_context, with_disableModeration, with_model, with_stream,
      dry, apiKey; cbn -[trim].
  - destruct dr as [[|]|]; simpl; destruct k; reflexivity.
  - destruct d, ak as [[|x k]|]; reflexivity.
  - reflexivity.
  - reflexivity.
  - reflexivity.
  - reflexivity.
Qed.

(** X8: On a config a program holds, assigning a property its own value (the
    revalidation idiom [this.dry = this.dry]) changes nothing. *)
Theorem self_assignment_is_noop p ops :
  (forall k, apiKey (reachable p ops) = Some k ->
     set_apiKey (reachable p ops) k = reachable p ops) /\
  (forall d, dry (reachable p ops) = Some d ->
     set_dry (reachable p ops) d = reachable p ops) /\
  (forall s, context (reachable p ops) = Some s ->
     set_context (reachable p ops) s = reachable p ops).
Proof.
  destruct (reachable_settled p ops)
    as ([k Hk] & (s & Hs & Hclean) & (d & Hd & Hinv)).
  unfold apiKey, context, dry in *.
  destruct (reachable p ops) as [m st kn ak dm cx dr]. simpl in *.
  subst ak cx dr.
  assert (Hforce : negb d && negb (truthy k) = false).
  { destruct d; [reflexivity|]. destruct k as [|x k]; [|reflexivity].
    specialize (Hinv eq_refl). discriminate. }
  repeat split.
  - intros k' E. injection E as <-.
    unfold set_apiKey, set_dry, with_dry, with_apiKey, dry, apiKey. simpl.
    now rewrite Hforce.
  - intros d' E. injection E as <-.
    unfold set_dry, with_dry, apiKey. simpl. now rewrite Hforce.
  - intros s' E. injection E as <-.
    unfold set_context, with_context. simpl. now rewrite (trim_fixed Hclean).
Qed.

End Laws.

(** With the key in place, [dry = false] is honoured. *)
Lemma leaving_dry_mode_witness :
  dry (assign
         (reachable documented_context false DMfalse (str "gpt-3.5-turbo")
                    false no_parameters [AssignApiKey (str "sk-1")])
         (AssignDry false)) = Some false.
Proof.
  apply (proj2 (@leaving_dry_mode unit documented_context false DMfalse
                  (str "gpt-3.5-turbo") false no_parameters
                  [AssignApiKey (str "sk-1")] (AssignDry false) eq_refl)).
  split; [reflexivity|].
  exists (str "sk-1"). split; [reflexivity | discriminate].
Defined.

(** Key first, then [dry = false], leaves dry mode; the other order does
    not. *)
Example key_before_dry :
  dry (reachable documented_context false DMfalse (str "gpt-3.5-turbo") false
         no_parameters [AssignApiKey (str "sk-1"); AssignDry false])
    = Some false /\
  dry (reachable documented_context false DMfalse (str "gpt-3.5-turbo") false
         no_parameters [AssignDry false; AssignApiKey (str "sk-1")])
    = Some true.
Proof. split; reflexivity. Qed.

End ConfigLaws.

(** ** Conversation.ts: laws of a turn

    The complete hook protocol of [prompt] and [functionPrompt], the
    successful turn, the failures ahead of the [try] block, and [reprompt]
    on every history. *)
Module TurnLaws.
Import Js Conversation.

Section Laws.

Variables E JsValue PromptOptions RequestOptions : Type.
Variable typeof_string : JsValue -> option jsstring.
Variable JSON_stringify : JsValue -> Result E (option jsstring).
Variable C : Collaborators E JsValue PromptOptions RequestOptions.

Let Trace := list (Call E JsValue).

(** The collaborator calls a user turn can make, with its outcome: the
    three stages in order when it returns; when it throws, the stages up
    to the failed one and then the error hook. *)
Definition user_turn (um : Message) (trace : Trace)
    (result : Result E Message) : Prop :=
  (exists a,
     result = Returned a /\
     trace = [CallOnUserPrompt um; CallModerateMessage um;
              CallGetAssistantResponse]) \/
  (exists e e',
     result = Threw e' /\
     (trace = [CallOnUserPrompt um; CallOnUserPromptError e] \/
      trace = [CallOnUserPrompt um; CallModerateMessage um;
               CallOnUserPromptError e] \/
      trace = [CallOnUserPrompt um; CallModerateMessage um;
               CallGetAssistantResponse; CallOnUserPromptError e])).

(** The same for a function turn, after the transform. *)
Definition function_turn (fm : Message) (trace : Trace)
    (result : Result E Message) : Prop :=
  (exists a,
     result = Returned a /\
     trace = [CallOnFunctionPrompt fm; CallModerateMessage fm;
              CallGetAssistantResponse]) \/
  (exists e e',
     result = Threw e' /\
     (trace = [CallOnFunctionPrompt fm; CallOnFunctionPromptError e] \/
      trace = [CallOnFunctionPrompt fm; CallModerateMessage fm;
               CallOnFunctionPromptError e] \/
      trace = [CallOnFunctionPrompt fm; CallModerateMessage fm;
               CallGetAssistantResponse; CallOnFunctionPromptError e])).

(** The messages [reprompt] leaves before it prompts again: those whose id
    is not the id of a message from index [j] on. *)
Definition truncated (j : nat) (h : list Message) : list Message :=
  filter (fun x => negb (existsb (fun m => same_id (m_id m) x) (skipn j h))) h.

Lemma app_three {A} (l : list A) a b c :
  ((l ++ [a]) ++ [b]) ++ [c] = l ++ [a; b; c].
Proof. now rewrite <- !app_assoc. Qed.

Lemma app_two {A} (l : list A) a b : (l ++ [a]) ++ [b] = l ++ [a; b].
Proof. now rewrite <- !app_assoc. Qed.

Lemma app_four {A} (l : list A) a b c d :
  (((l ++ [a]) ++ [b]) ++ [c]) ++ [d] = l ++ [a; b; c; d].
Proof. now rewrite <- !app_assoc. Qed.

(** X9: A turn whose three stages return: each stage sees the history the one
    before it left, the pending message stays, the error hook is not
    called, and the caller gets the assistant message. *)
Theorem prompt_success uid text o r w h1 h2 h3 a :
  onUserPrompt C (userMessageOf uid text)
    (messages w ++ [userMessageOf uid text]) = (h1, Returned tt) ->
  moderateMessage C (userMessageOf uid text) h1 = (h2, Returned tt) ->
  getAssistantResponse C o r h2 = (h3, Returned a) ->
  prompt C uid text o r w =
    ({| messages := h3;
        calls := calls w ++ [CallOnUserPrompt (userMessageOf uid text);
                             CallModerateMessage (userMessageOf uid text);
                             CallGetAssistantResponse] |},
     Returned a).
Proof.
  intros H1 H2 H3.
  unfold prompt, bind, addUserMessage, try_catch, userStages, bind, call, ret.
  fold (userMessageOf uid text). simpl.
  rewrite H1. simpl. rewrite H2. simpl. rewrite H3. simpl.
  now rewrite app_three.
Qed.

(** [prompt] in closed form, by the outcomes of its collaborators. *)
Lemma prompt_run uid text o r w :
  prompt C uid text o r w =
  let um := userMessageOf uid text in
  let rollback (trace : Trace) (h : list Message) (e : Thrown E) :=
    match onUserPromptError C e h with
    | (h', Returned _) =>
        ({| messages := without uid h';
            calls := calls w ++ trace ++ [CallOnUserPromptError e] |},
         Threw e)
    | (h', Threw e') =>
        ({| messages := h';
            calls := calls w ++ trace ++ [CallOnUserPromptError e] |},
         Threw e')
    end in
  match onUserPrompt C um (messages w ++ [um]) with
  | (h1, Threw e) => rollback [CallOnUserPrompt um] h1 e
  | (h1, Returned _) =>
      match moderateMessage C um h1 with
      | (h2, Threw e) =>
          rollback [CallOnUserPrompt um; CallModerateMessage um] h2 e
      | (h2, Returned _) =>
          match getAssistantResponse C o r h2 with
          | (h3, Threw e) =>
              rollback [CallOnUserPrompt um; CallModerateMessage um;
                        CallGetAssistantResponse] h3 e
          | (h3, Returned a) =>
              ({| messages := h3;
                  calls := calls w ++ [CallOnUserPrompt um;
                                       CallModerateMessage um;
                                       CallGetAssistantResponse] |},
               Returned a)
          end
      end
  end.
Proof.
  unfold prompt, bind, addUserMessage, try_catch, userStages, userRollback,
    bind, call, ret, removeMessage, throw, without.
  fold (userMessageOf uid text). simpl.
  destruct (onUserPrompt C _ _) as [h1 [[]|e1]]; simpl.
  2:{ destruct (onUserPromptError C e1 h1) as [h4 [[]|e4]]; simpl;
      now rewrite app_two. }
  destruct (moderateMessage C _ h1) as [h2 [[]|e2]]; simpl.
  2:{ destruct (onUserPromptError C e2 h2) as [h4 [[]|e4]]; simpl;
      now rewrite app_three. }
  destruct (getAssistantResponse C o r h2) as [h3 [a|e3]]; simpl.
  - now rewrite app_three.
  - destruct (onUserPromptError C e3 h3) as [h4 [[]|e4]]; simpl;
      now rewrite app_four.
Qed.

(** [functionPrompt] in closed form, likewise. *)
Lemma functionPrompt_run uid name result o r w :
  functionPrompt typeof_string JSON_stringify C uid name result o r w =
  let first := CallTransformFunctionResult result in
  match transformFunctionResult C result (messages w) with
  | (h, Threw e) =>
      ({| messages := h; calls := calls w ++ [first] |}, Threw e)
  | (h, Returned v) =>
      match stringify typeof_string JSON_stringify v with
      | Threw e =>
          ({| messages := h; calls := calls w ++ [first] |}, Threw e)
      | Returned content =>
          let fm := functionMessageOf uid content name in
          let rollback (trace : Trace) (h' : list Message) (e : Thrown E) :=
            match onFunctionPromptError C e h' with
            | (h'', Returned _) =>
                ({| messages := without uid h'';
                    calls := calls w ++ first :: trace
                               ++ [CallOnFunctionPromptError e] |},
                 Threw e)
            | (h'', Threw e') =>
                ({| messages := h'';
                    calls := calls w ++ first :: trace
                               ++ [CallOnFunctionPromptError e] |},
                 Threw e')
            end in
          match onFunctionPrompt C fm (h ++ [fm]) with
          | (h1, Threw e) => rollback [CallOnFunctionPrompt fm] h1 e
          | (h1, Returned _) =>
              match moderateMessage C fm h1 with
              | (h2, Threw e) =>
                  rollback [CallOnFunctionPrompt fm; CallModerateMessage fm]
                           h2 e
              | (h2, Returned _) =>
                  match getAssistantResponse C o r h2 with
                  | (h3, Threw e) =>
                      rollback [CallOnFunctionPrompt fm;
                                CallModerateMessage fm;
                                CallGetAssistantResponse] h3 e
                  | (h3, Returned a) =>
                      ({| messages := h3;
                          calls := calls w ++ [first;
                                               CallOnFunctionPrompt fm;
                                               CallModerateMessage fm;
                                               CallGetAssistantResponse] |},
                       Returned a)
                  end
              end
          end
      end
  end.
Proof.
  unfold functionPrompt, bind, call, lift, addFunctionMessage, try_catch,
    functionStages, functionRollback, bind, call, ret, removeMessage, throw,
    without.
  destruct (transformFunctionResult C result (messages w)) as [h0 [v|e0]];
    simpl; [|reflexivity].
  destruct (stringify typeof_string JSON_stringify v) as [content|es]; simpl;
    [|reflexivity].
  fold (functionMessageOf uid content name).
  destruct (onFunctionPrompt C _ _) as [h1 [[]|e1]]; simpl.
  2:{ destruct (onFunctionPromptError C e1 h1) as [h4 [[]|e4]]; simpl;
      now rewrite app_two, <- app_assoc. }
  destruct (moderateMessage C _ h1) as [h2 [[]|e2]]; simpl.
  2:{ destruct (onFunctionPromptError C e2 h2) as [h4 [[]|e4]]; simpl;
      now rewrite app_three, <- app_assoc. }
  destruct (getAssistantResponse C o r h2) as [h3 [a|e3]]; simpl.
  - now rewrite app_three, <- app_assoc.
  - destruct (onFunctionPromptError C e3 h3) as [h4 [[]|e4]]; simpl;
      now rewrite app_four, <- app_assoc.
Qed.

Ltac use_outcomes :=
  repeat match goal with
  | H : exists _, _ |- _ => destruct H
  | H : _ /\ _ |- _ => destruct H
  | H : _ \/ _ |- _ => destruct H
  | H : False |- _ => destruct H
  | H : In _ (_ :: _) |- _ => simpl in H
  | H : @eq (Call _ _) _ _ |- _ =>
      discriminate H || (injection H; intros; subst; clear H)
  | H : (_, _) = (_, _) |- _ =>
      discriminate H || (injection H; intros; subst; clear H)
  | H1 : ?t = (_, _), H2 : ?t = (_, _) |- _ =>
      rewrite H1 in H2;
      (discriminate H2 || (injection H2; intros; subst; clear H2))
  end.

(** X10: the hook protocol of [prompt], whatever the collaborators do.
    [onUserPrompt] is called first; [moderateMessage] is called exactly
    when the hook returned; [getAssistantResponse] exactly when the hook
    and moderation returned; [onUserPromptError] is called with [e] exactly
    when one of the three stages threw [e], and then it is the last call
    and [prompt] throws.  When all three return, [prompt] returns.  No
    function hook and no transform is ever called. *)
Theorem prompt_protocol uid text o r w :
  exists trace,
    calls (fst (prompt C uid text o r w)) = calls w ++ trace /\
    user_turn (userMessageOf uid text) trace
              (snd (prompt C uid text o r w)) /\
    (In (CallModerateMessage (userMessageOf uid text)) trace <->
     exists h1,
       onUserPrompt C (userMessageOf uid text)
         (messages w ++ [userMessageOf uid text]) = (h1, Returned tt)) /\
    (In CallGetAssistantResponse trace <->
     exists h1 h2,
       onUserPrompt C (userMessageOf uid text)
         (messages w ++ [userMessageOf uid text]) = (h1, Returned tt) /\
       moderateMessage C (userMessageOf uid text) h1 = (h2, Returned tt)) /\
    (forall e,
       In (CallOnUserPromptError e) trace <->
       (exists h1,
          onUserPrompt C (userMessageOf uid text)
            (messages w ++ [userMessageOf uid text]) = (h1, Threw e)) \/
       (exists h1 h2,
          onUserPrompt C (userMessageOf uid text)
            (messages w ++ [userMessageOf uid text]) = (h1, Returned tt) /\
          moderateMessage C (userMessageOf uid text) h1 = (h2, Threw e)) \/
       (exists h1 h2 h3,
          onUserPrompt C (userMessageOf uid text)
            (messages w ++ [userMessageOf uid text]) = (h1, Returned tt) /\
          moderateMessage C (userMessageOf uid text) h1 = (h2, Returned tt) /\
          getAssistantResponse C o r h2 = (h3, Threw e))).
Proof.
  rewrite prompt_run. cbv zeta. unfold user_turn.
  set (um := userMessageOf uid text).
  destruct (onUserPrompt C um (messages w ++ [um])) as [h1 [[]|e1]] eqn:H1.
  2:{ exists [CallOnUserPrompt um; CallOnUserPromptError e1].
      destruct (onUserPromptError C e1 h1) as [h4 [[]|e4]]; simpl;
        (split; [reflexivity|]); (split; [right; eauto 10|]);
        (split; [split; intros; use_outcomes|]);
        (split; [split; intros; use_outcomes|]);
        intros e; (split; intros; use_outcomes; simpl; eauto 10). }
  destruct (moderateMessage C um h1) as [h2 [[]|e2]] eqn:H2.
  2:{ exists [CallOnUserPrompt um; CallModerateMessage um;
              CallOnUserPromptError e2].
      destruct (onUserPromptError C e2 h2) as [h4 [[]|e4]]; simpl;
        (split; [reflexivity|]); (split; [right; eauto 10|]);
        (split; [split; intros; use_outcomes; simpl; eauto 10|]);
        (split; [split; intros; use_outcomes|]);
        intros e; (split; intros; use_outcomes; simpl; eauto 10). }
  destruct (getAssistantResponse C o r h2) as [h3 [a|e3]] eqn:H3.
  - exists [CallOnUserPrompt um; CallModerateMessage um;
            CallGetAssistantResponse].
    simpl. split; [reflexivity|]. split; [left; eauto|].
    split; [split; intros; use_outcomes; simpl; eauto 10|].
    split; [split; intros; use_outcomes; simpl; eauto 10|].
    intros e; split; intros; use_outcomes.
  - exists [CallOnUserPrompt um; CallModerateMessage um;
            CallGetAssistantResponse; CallOnUserPromptError e3].
    destruct (onUserPromptError C e3 h3) as [h4 [[]|e4]]; simpl;
      (split; [reflexivity|]); (split; [right; eauto 10|]);
      (split; [split; intros; use_outcomes; simpl; eauto 10|]);
      (split; [split; intros; use_outcomes; simpl; eauto 10|]);
      intros e; (split; intros; use_outcomes; simpl; eauto 15).
Qed.

(** X11: the hook protocol of [functionPrompt], whatever the collaborators
    do.  The transform is called first.  When the transform throws, or the
    conversion of its result throws, nothing else is called and
    [functionPrompt] throws that error.  Otherwise, with [fm] the function
    message: [onFunctionPrompt] is called next; [moderateMessage] exactly
    when that hook returned; [getAssistantResponse] exactly when the hook
    and moderation returned; [onFunctionPromptError] is called with [e]
    exactly when one of the three stages threw [e], and then it is the last
    call and [functionPrompt] throws.  No user hook is ever called. *)
Theorem functionPrompt_protocol uid name result o r w :
  exists trace,
    calls (fst (functionPrompt typeof_string JSON_stringify C
                  uid name result o r w))
      = calls w ++ CallTransformFunctionResult result :: trace /\
    match transformFunctionResult C result (messages w) with
    | (h, Threw e) =>
        trace = [] /\
        snd (functionPrompt typeof_string JSON_stringify C
               uid name result o r w) = Threw e
    | (h, Returned v) =>
        match stringify typeof_string JSON_stringify v with
        | Threw e =>
            trace = [] /\
            snd (functionPrompt typeof_string JSON_stringify C
                   uid name result o r w) = Threw e
        | Returned content =>
            let fm := functionMessageOf uid content name in
            function_turn fm trace
              (snd (functionPrompt typeof_string JSON_stringify C
                      uid name result o r w)) /\
            (In (CallModerateMessage fm) trace <->
             exists h1, onFunctionPrompt C fm (h ++ [fm]) = (h1, Returned tt))
            /\
            (In CallGetAssistantResponse trace <->
             exists h1 h2,
               onFunctionPrompt C fm (h ++ [fm]) = (h1, Returned tt) /\
               moderateMessage C fm h1 = (h2, Returned tt)) /\
            (forall e,
               In (CallOnFunctionPromptError e) trace <->
               (exists h1, onFunctionPrompt C fm (h ++ [fm]) = (h1, Threw e))
               \/
               (exists h1 h2,
                  onFunctionPrompt C fm (h ++ [fm]) = (h1, Returned tt) /\
                  moderateMessage C fm h1 = (h2, Threw e)) \/
               (exists h1 h2 h3,
                  onFunctionPrompt C fm (h ++ [fm]) = (h1, Returned tt) /\
                  moderateMessage C fm h1 = (h2, Returned tt) /\
                  getAssistantResponse C o r h2 = (h3, Threw e)))
        end
    end.
Proof.
  rewrite functionPrompt_run. cbv zeta. unfold function_turn.
  destruct (transformFunctionResult C result (messages w)) as [h [v|e0]].
  2:{ exists []. simpl. auto. }
  destruct (stringify typeof_string JSON_stringify v) as [content|es].
  2:{ exists []. simpl. auto. }
  set (fm := functionMessageOf uid content name).
  destruct (onFunctionPrompt C fm (h ++ [fm])) as [h1 [[]|e1]] eqn:H1.
  2:{ exists [CallOnFunctionPrompt fm; CallOnFunctionPromptError e1].
      destruct (onFunctionPromptError C e1 h1) as [h4 [[]|e4]]; simpl;
        (split; [reflexivity|]); (split; [right; eauto 10|]);
        (split; [split; intros; use_outcomes|]);
        (split; [split; intros; use_outcomes|]);
        intros e; (split; intros; use_outcomes; simpl; eauto 10). }
  destruct (moderateMessage C fm h1) as [h2 [[]|e2]] eqn:H2.
  2:{ exists [CallOnFunctionPrompt fm; CallModerateMessage fm;
              CallOnFunctionPromptError e2].
      destruct (onFunctionPromptError C e2 h2) as [h4 [[]|e4]]; simpl;
        (split; [reflexivity|]); (split; [right; eauto 10|]);
        (split; [split; intros; use_outcomes; simpl; eauto 10|]);
        (split; [split; intros; use_outcomes|]);
        intros e; (split; intros; use_outcomes; simpl; eauto 10). }
  destruct (getAssistantResponse C o r h2) as [h3 [a|e3]] eqn:H3.
  - exists [CallOnFunctionPrompt fm; CallModerateMessage fm;
            CallGetAssistantResponse].
    simpl. split; [reflexivity|]. split; [left; eauto|].
    split; [split; intros; use_outcomes; simpl; eauto 10|].
    split; [split; intros; use_outcomes; simpl; eauto 10|].
    intros e; split; intros; use_outcomes.
  - exists [CallOnFunctionPrompt fm; CallModerateMessage fm;
            CallGetAssistantResponse; CallOnFunctionPromptError e3].
    destruct (onFunctionPromptError C e3 h3) as [h4 [[]|e4]]; simpl;
      (split; [reflexivity|]); (split; [right; eauto 10|]);
      (split; [split; intros; use_outcomes; simpl; eauto 10|]);
      (split; [split; intros; use_outcomes; simpl; eauto 10|]);
      intros e; (split; intros; use_outcomes; simpl; eauto 15).
Qed.

(** X12: When the transformed result is not a string and [JSON.stringify]
    throws on it, [functionPrompt] ends with that error ahead of the [try]
    block: no message is appended to the history the transform left and no
    hook is called. *)
Theorem stringify_failure_propagates uid name result o r w h1 v e :
  transformFunctionResult C result (messages w) = (h1, Returned v) ->
  typeof_string v = None ->
  JSON_stringify v = Threw e ->
  functionPrompt typeof_string JSON_stringify C uid name result o r w =
    ({| messages := h1;
        calls := calls w ++ [CallTransformFunctionResult result] |},
     Threw e).
Proof.
  intros Ht Hty He.
  unfold functionPrompt, bind at 1, call at 1. rewrite Ht.
  unfold bind at 1, lift, stringify. now rewrite Hty, He.
Qed.

(** X13: A transformed result that is a string is never handed to
    [JSON.stringify]: the whole call is the same whatever
    [JSON.stringify] would do with it (quote it, or throw). *)
Theorem string_result_bypasses_JSON_stringify
    (other_stringify : JsValue -> Result E (option jsstring))
    uid name result o r w h1 v s :
  transformFunctionResult C result (messages w) = (h1, Returned v) ->
  typeof_string v = Some s ->
  functionPrompt typeof_string JSON_stringify C uid name result o r w =
    functionPrompt typeof_string other_stringify C uid name result o r w.
Proof.
  intros Ht Hty.
  unfold functionPrompt, bind, call, lift, stringify.
  rewrite Ht, Hty. reflexivity.
Qed.

Lemma findIndex_Some {A} (p : A -> bool) l :
  forall i, findIndex p l = Some i ->
    exists x, nth_error l i = Some x /\ p x = true.
Proof.
  induction l as [|y l IH]; simpl; intros i H; [discriminate|].
  destruct (p y) eqn:Ey.
  - injection H as <-. exists y. split; [reflexivity | exact Ey].
  - destruct (findIndex p l) as [k|]; [|discriminate].
    injection H as <-. apply (IH k eq_refl).
Qed.

(** The two ways the backward walk of [reprompt] can end when it starts
    inside the history. *)
Lemma walk_back_cases (l : list Message) :
  forall i m,
    nth_error l i = Some m ->
    (exists j u,
       walk_back E l i m = Returned (Some j, u) /\
       j <= i /\ nth_error l j = Some u /\ is_user u = true /\
       (forall k x, j < k -> k <= i -> nth_error l k = Some x ->
          is_user x = false)) \/
    (exists u,
       walk_back E l i m = Returned (None, u) /\ is_user u = false /\
       (forall k x, k <= i -> nth_error l k = Some x -> is_user x = false)).
Proof.
  induction i as [|i IH]; intros m Hm; rewrite walk_back_eq.
  - destruct (is_user m) eqn:Eu.
    + left. exists 0, m. repeat split; auto. intros k x H1 H2. lia.
    + right. exists m. repeat split; auto.
      intros k x Hk Hx. assert (k = 0) by lia. subst k. congruence.
  - destruct (is_user m) eqn:Eu.
    + left. exists (S i), m. repeat split; auto. intros k x H1 H2. lia.
    + destruct (nth_error l i) as [m'|] eqn:Hi.
      2:{ apply nth_error_None in Hi.
          assert (S i < List.length l) by (apply nth_error_Some; congruence).
          lia. }
      destruct (IH m' eq_refl)
        as [(j & u & Hw & Hj & Hn & Hu & Hbetween) | (u & Hw & Hu & Hall)].
      * left. exists j, u. repeat split; auto.
        intros k x H1 H2 Hx.
        destruct (Nat.eq_dec k (S i)) as [->|Hne]; [congruence|].
        apply (Hbetween k x); [exact H1 | lia | exact Hx].
      * right. exists u. repeat split; auto.
        intros k x Hk Hx.
        destruct (Nat.eq_dec k (S i)) as [->|Hne]; [congruence|].
        apply (Hall k x); [lia | exact Hx].
Qed.

(** X14: the backward walk of [reprompt], started at a message of the
    history, never reads past either end, and it ends at the user message
    [u] with index [j] exactly when [j] is the nearest index at or before
    the start that holds a user message; it runs off the front (index [-1])
    exactly when no message at or before the start is a user message. *)
Theorem walk_back_nearest_user (l : list Message) i m :
  nth_error l i = Some m ->
  (forall j u,
     walk_back E l i m = Returned (Some j, u) <->
     (j <= i /\ nth_error l j = Some u /\ is_user u = true /\
      forall k x, j < k -> k <= i -> nth_error l k = Some x ->
        is_user x = false)) /\
  ((exists u, walk_back E l i m = Returned (None, u)) <->
   (forall k x, k <= i -> nth_error l k = Some x -> is_user x = false)) /\
  walk_back E l i m <> Threw JsTypeError.
Proof.
  intros Hm.
  destruct (@walk_back_cases l i m Hm)
    as [(j0 & u0 & Hw & Hj & Hn & Hu & Hbetween) | (u0 & Hw & Hu & Hall)].
  - split; [|split].
    + intros j u. split.
      * intros H. rewrite Hw in H. injection H as <- <-. auto.
      * intros (Hj' & Hn' & Hu' & Hbetween'). rewrite Hw.
        assert (j0 = j).
        { destruct (Nat.lt_trichotomy j0 j) as [Hlt|[Heq|Hgt]];
            [|exact Heq|].
          - pose proof (Hbetween j u Hlt Hj' Hn'). congruence.
          - pose proof (Hbetween' j0 u0 Hgt Hj Hn). congruence. }
        subst j0. congruence.
    + split.
      * intros (u & H). rewrite Hw in H. discriminate H.
      * intros Hall. pose proof (Hall j0 u0 Hj Hn). congruence.
    + rewrite Hw. discriminate.
  - split; [|split].
    + intros j u. split.
      * intros H. rewrite Hw in H. discriminate H.
      * intros (Hj' & Hn' & Hu' & _).
        pose proof (Hall j u Hj' Hn'). congruence.
    + split; [intros _; exact Hall | intros _; now exists u0].
    + rewrite Hw. discriminate.
Qed.

(** [reprompt] once the target and the user message are located. *)
Lemma reprompt_steps uid target newPrompt o r w i t j u :
  findIndex (same_id (target_id target)) (messages w) = Some i ->
  nth_error (messages w) i = Some t ->
  walk_back E (messages w) i t = Returned (Some j, u) ->
  is_user u = true ->
  reprompt C uid target newPrompt o r w =
    prompt C uid
      (match newPrompt with Some s => s | None => content_text u end) o r
      {| messages := truncated j (messages w); calls := calls w |}.
Proof.
  intros Hfi Hnth Hwb Hu.
  unfold reprompt. fold (target_id target).
  unfold bind at 1, getMessages. rewrite Hfi, Hnth.
  unfold bind at 1, lift. rewrite Hwb, Hu. cbn [negb].
  unfold bind at 1. cbv beta. rewrite forEach_removeMessage.
  unfold slice, truncated.
  destruct newPrompt as [[|c s]|]; reflexivity.
Qed.

(** X15: [reprompt] on any history and any target does one of three things: it
    throws the not-found error, or the no-previous-user-message error, in
    both cases leaving the conversation untouched; or it finds a user
    message [u] at an index [j] at or before the target, removes every
    message that shares an id with a message from [j] on, and prompts with
    [newPrompt] when one is given (the empty string included) and with the
    content of [u] otherwise.  It never throws a [TypeError] of its own. *)
Theorem reprompt_outcomes uid target newPrompt o r w :
  reprompt C uid target newPrompt o r w =
    (w, Threw (JsError (not_found_message (target_id target)))) \/
  reprompt C uid target newPrompt o r w =
    (w, Threw (JsError (no_previous_user_message (target_id target)))) \/
  (exists i j u,
     findIndex (same_id (target_id target)) (messages w) = Some i /\
     j <= i /\ nth_error (messages w) j = Some u /\ is_user u = true /\
     reprompt C uid target newPrompt o r w =
       prompt C uid
         (match newPrompt with Some s => s | None => content_text u end) o r
         {| messages := truncated j (messages w); calls := calls w |}).
Proof.
  destruct (findIndex (same_id (target_id target)) (messages w)) as [i|]
    eqn:Hfi.
  2:{ left. unfold reprompt. fold (target_id target).
      unfold bind at 1, getMessages. now rewrite Hfi. }
  destruct (findIndex_Some _ _ Hfi) as (t & Hnth & _).
  destruct (@walk_back_cases (messages w) i t Hnth)
    as [(j & u & Hw & Hj & Hn & Hu & _) | (u & Hw & Hu & _)].
  - right. right. exists i, j, u. repeat split; auto.
    now apply reprompt_steps with (i := i) (t := t).
  - right. left. unfold reprompt. fold (target_id target).
    unfold bind at 1, getMessages. rewrite Hfi, Hnth.
    unfold bind at 1, lift. now rewrite Hw, Hu.
Qed.

(** [reprompt] at a user message [u] followed, up to the target, by
    messages [mid] that are not user messages, in a history with distinct
    ids. *)
Lemma reprompt_reissue uid target newPrompt o r w pre u mid post :
  NoDup (map m_id (messages w)) ->
  messages w = pre ++ u :: mid ++ post ->
  is_user u = true ->
  Forall (fun m => is_user m = false) mid ->
  target_id target = m_id (last mid u) ->
  reprompt C uid target newPrompt o r w =
    prompt C uid
      (match newPrompt with Some s => s | None => content_text u end) o r
      {| messages := pre; calls := calls w |}.
Proof.
  intros Hnd Hm Hu Hmid Hid.
  destruct (last_split u mid) as (a & Ha & Hla).
  assert (Hm' : messages w = (pre ++ a) ++ last mid u :: post).
  { rewrite Hm. change (u :: mid ++ post) with ((u :: mid) ++ post).
    rewrite Ha, <- !app_assoc. reflexivity. }
  assert (Hfi : findIndex (same_id (target_id target)) (messages w)
                = Some (List.length pre + List.length mid)).
  { rewrite Hid, Hm', <- Hla, <- length_app. apply findIndex_first.
    - apply NoDup_ids_before with (b := post). now rewrite <- Hm'.
    - now apply same_id_true. }
  assert (Hnth : nth_error (messages w) (List.length pre + List.length mid)
                 = Some (last mid u)).
  { rewrite Hm', <- Hla, <- length_app.
    rewrite nth_error_app2 by lia. now rewrite Nat.sub_diag. }
  assert (Hk : nth_error (u :: mid) (List.length mid) = Some (last mid u)).
  { rewrite Ha at 1. rewrite <- Hla, nth_error_app2 by lia.
    now rewrite Nat.sub_diag. }
  assert (Hwb : walk_back E (messages w) (List.length pre + List.length mid)
                  (last mid u) = Returned (Some (List.length pre), u)).
  { rewrite Hm. now apply walk_back_found. }
  rewrite (reprompt_steps uid target newPrompt o r w Hfi Hnth Hwb Hu).
  unfold truncated. rewrite Hm.
  rewrite skipn_app, skipn_all, Nat.sub_diag. simpl skipn. simpl app.
  rewrite remove_suffix by (now rewrite <- Hm). reflexivity.
Qed.

(** X16: [reprompt] is not atomic: when the turn it issues fails (and the error
    hook returns, the collaborators having left the history alone), only
    the new user message is rolled back.  The messages [reprompt] removed,
    the earlier user message and everything after it, stay removed, and the
    error of the failed stage reaches the caller. *)
Theorem reprompt_failure_keeps_truncation
    uid target newPrompt o r w pre u mid post w2 e :
  NoDup (map m_id (messages w)) ->
  messages w = pre ++ u :: mid ++ post ->
  is_user u = true ->
  Forall (fun m => is_user m = false) mid ->
  target_id target = m_id (last mid u) ->
  fresh uid pre ->
  userStages C
    (userMessageOf uid
       (match newPrompt with Some s => s | None => content_text u end)) o r
    {| messages :=
         pre ++ [userMessageOf uid
                   (match newPrompt with
                    | Some s => s
                    | None => content_text u
                    end)];
       calls := calls w |} = (w2, Threw e) ->
  onUserPromptError C e (messages w2) =
    (pre ++ [userMessageOf uid
               (match newPrompt with
                | Some s => s
                | None => content_text u
                end)],
     Returned tt) ->
  reprompt C uid target newPrompt o r w =
    ({| messages := pre;
        calls := calls w2 ++ [CallOnUserPromptError e] |}, Threw e).
Proof.
  intros Hnd Hm Hu Hmid Hid Hfresh Hstages Hhook.
  rewrite (@reprompt_reissue uid target newPrompt o r w pre u mid post
             Hnd Hm Hu Hmid Hid).
  rewrite prompt_unfold. unfold appended. simpl.
  rewrite (try_catch_threw _ _ _ Hstages), userRollback_run, Hhook.
  simpl. rewrite without_appended; [reflexivity | exact Hfresh | reflexivity].
Qed.

End Laws.

(** A dry run answers the prompt by mirroring it. *)
Lemma prompt_success_witness :
  prompt dry_run (str "m5") (str "Bye") None None two_turns =
    ({| messages :=
          messages two_turns
            ++ [userMessageOf (str "m5") (str "Bye");
                message "a-next" Rassistant "Bye"];
        calls := [CallOnUserPrompt (userMessageOf (str "m5") (str "Bye"));
                  CallModerateMessage (userMessageOf (str "m5") (str "Bye"));
                  CallGetAssistantResponse] |},
     Returned (message "a-next" Rassistant "Bye")).
Proof.
  exact (@prompt_success nat Val unit unit dry_run (str "m5") (str "Bye")
           None None two_turns _ _ _ _ eq_refl eq_refl eq_refl).
Defined.

(** A cyclic result cannot be encoded: nothing is appended. *)
Lemma stringify_failure_propagates_witness :
  functionPrompt val_typeof_string val_JSON_stringify dry_run
    (str "m5") (str "clock") VCyclic None None two_turns =
    ({| messages := messages two_turns;
        calls := [CallTransformFunctionResult VCyclic] |},
     Threw JsTypeError).
Proof.
  exact (@stringify_failure_propagates nat Val unit unit val_typeof_string
           val_JSON_stringify dry_run (str "m5") (str "clock") VCyclic
           None None two_turns _ VCyclic JsTypeError
           eq_refl eq_refl eq_refl).
Defined.

(** A string result goes through even when [JSON.stringify] always
    throws. *)
Lemma string_result_bypasses_JSON_stringify_witness :
  functionPrompt val_typeof_string val_JSON_stringify dry_run
    (str "m5") (str "clock") (VString (str "noon")) None None two_turns =
  functionPrompt val_typeof_string (fun _ => Threw JsTypeError) dry_run
    (str "m5") (str "clock") (VString (str "noon")) None None two_turns.
Proof.
  exact (@string_result_bypasses_JSON_stringify nat Val unit unit
           val_typeof_string val_JSON_stringify dry_run
           (fun _ => Threw JsTypeError)
           (str "m5") (str "clock") (VString (str "noon")) None None
           two_turns _ _ (str "noon") eq_refl eq_refl).
Defined.

(** From [asst2] the walk stops at [user2], one step back. *)
Lemma walk_back_nearest_user_witness :
  walk_back nat (messages two_turns) 4 asst2 = Returned (Some 3, user2).
Proof.
  apply (proj1 (@walk_back_nearest_user nat (messages two_turns) 4 asst2
                  eq_refl)).
  repeat split.
  - lia.
  - intros k x H1 H2 Hx.
    assert (k = 4) by lia. subst k. vm_compute in Hx.
    injection Hx as <-. reflexivity.
Defined.

(** Regenerating the last answer under strict moderation that flags the
    prompt: the call throws, and [user2] and [asst2] are gone. *)
Lemma reprompt_failure_keeps_truncation_witness :
  reprompt strict_flagged (str "m5") (inr asst2) None None None two_turns =
    ({| messages := [sys; user1; asst1];
        calls :=
          [CallOnUserPrompt (userMessageOf (str "m5") (str "How are you?"));
           CallModerateMessage
             (userMessageOf (str "m5") (str "How are you?"));
           CallOnUserPromptError (Raised 1)] |},
     Threw (Raised 1)).
Proof.
  apply (@reprompt_failure_keeps_truncation nat Val unit unit strict_flagged
           (str "m5") (inr asst2) None None None two_turns
           [sys; user1; asst1] user2 [asst2] []
           {| messages :=
                [sys; user1; asst1;
                 userMessageOf (str "m5") (str "How are you?")];
              calls :=
                [CallOnUserPrompt
                   (userMessageOf (str "m5") (str "How are you?"));
                 CallModerateMessage
                   (userMessageOf (str "m5") (str "How are you?"))] |}
           (Raised 1)).
  - distinct_ids.
  - reflexivity.
  - reflexivity.
  - repeat constructor.
  - reflexivity.
  - fresh_in_history.
  - reflexivity.
  - reflexivity.
Defined.

End TurnLaws.

(** ** ConversationManagerProvider (web)

    The provider keeps three [useState] cells.  A callback is the one made
    by the render that shows a state [s]: where the source reads a captured
    variable it reads [s], and a functional update is applied to [s].  Each
    definition gives the state of the next render. *)
Module ConversationManager.
Import Js.

(** [Map<string, string>]: one entry per key, in insertion order. *)
Definition StringMap := list (jsstring * jsstring).

(** [Map.prototype.get]; [None] is [undefined]. *)
Fixpoint map_get (k : jsstring) (m : StringMap) : option jsstring :=
  match m with
  | [] => None
  | (k', v) :: m' => if jsstring_eqb k' k then Some v else map_get k m'
  end.

(** [Map.prototype.set]: an existing key keeps its place. *)
Fixpoint map_set (k v : jsstring) (m : StringMap) : StringMap :=
  match m with
  | [] => [(k, v)]
  | (k', v') :: m' =>
      if jsstring_eqb k' k then (k, v) :: m' else (k', v') :: map_set k v m'
  end.

Section Provider.

(** The [Conversation] objects of the library, of which the provider reads
    the [id] only. *)
Variable Conversation : Type.
Variable id_of : Conversation -> jsstring.

Record State := {
  conversations : list Conversation;
  activeId : option jsstring;
  conversationNames : StringMap
}.

Definition with_activeId (s : State) (id : option jsstring) : State :=
  {| conversations := conversations s; activeId := id;
     conversationNames := conversationNames s |}.

(** [conversations.find((c) => c.id === id)] *)
Definition find_by_id (id : jsstring) (l : list Conversation)
  : option Conversation :=
  find (fun c => jsstring_eqb (id_of c) id) l.

(** [addConversation]; [newConversation] is the object
    [new Conversation(conversation)] built. *)
Definition addConversation (s : State) (newConversation : Conversation)
  : State * Conversation :=
  ({| conversations := conversations s ++ [newConversation];
      activeId := activeId s;
      conversationNames := conversationNames s |}, newConversation).

(** [setActiveConversation(id, force = false)] *)
Definition setActiveConversation (s : State) (id : option jsstring)
    (force : bool) : State :=
  if force then with_activeId s id
  else if negb (truthy_opt truthy id) then with_activeId s None
  else
    match id with
    | None => with_activeId s None
    | Some i =>
        match find_by_id i (conversations s) with
        | None => with_activeId s None
        | Some _ => with_activeId s (Some i)
        end
    end.

(** [removeConversation(id)]: the filter is a functional update; the call
    [setActiveConversation(activeId)] that follows reads the captured
    [activeId] and, inside, the captured [conversations]. *)
Definition removeConversation (s : State) (id : jsstring) : State :=
  {| conversations :=
       filter (fun c => negb (jsstring_eqb (id_of c) id)) (conversations s);
     activeId := activeId (setActiveConversation s (activeId s) false);
     conversationNames := conversationNames s |}.

(** [getConversationName(id)] *)
Definition getConversationName (s : State) (id : jsstring) : jsstring :=
  match map_get id (conversationNames s) with
  | Some name => name
  | None =>
      match find_by_id id (conversations s) with
      | Some c => id_of c
      | None => []
      end
  end.

(** [setConversationName(id, name)] *)
Definition setConversationName (s : State) (id name : jsstring) : State :=
  {| conversations := conversations s; activeId := activeId s;
     conversationNames := map_set id name (conversationNames s) |}.

(** [providerValue.activeConversation] *)
Definition activeConversation (s : State) : option Conversation :=
  match activeId s with
  | Some id => find_by_id id (conversations s)
  | None => None
  end.

Lemma eqb_refl (a : jsstring) : jsstring_eqb a a = true.
Proof. unfold jsstring_eqb. destruct (list_eq_dec N.eq_dec a a); congruence. Qed.

Lemma eqb_neq (a b : jsstring) : a <> b -> jsstring_eqb a b = false.
Proof. unfold jsstring_eqb. destruct (list_eq_dec N.eq_dec a b); congruence. Qed.

Lemma eqb_true (a b : jsstring) : jsstring_eqb a b = true -> a = b.
Proof. unfold jsstring_eqb. destruct (list_eq_dec N.eq_dec a b); congruence. Qed.

Lemma map_get_set_same k v m : map_get k (map_set k v m) = Some v.
Proof.
  induction m as [|[k' v'] m IH]; simpl.
  - now rewrite eqb_refl.
  - destruct (jsstring_eqb k' k) eqn:E; simpl.
    + now rewrite eqb_refl.
    + now rewrite E.
Qed.

Lemma map_get_set_other k k' v m :
  k' <> k -> map_get k' (map_set k v m) = map_get k' m.
Proof.
  intros Hne. induction m as [|[k0 v0] m IH]; simpl.
  - rewrite eqb_neq; [reflexivity | congruence].
  - destruct (jsstring_eqb k0 k) eqn:E; simpl.
    + apply eqb_true in E. subst k0.
      rewrite !eqb_neq by congruence. reflexivity.
    + destruct (jsstring_eqb k0 k'); [reflexivity | exact IH].
Qed.

Lemma find_by_id_id id l c : find_by_id id l = Some c -> id_of c = id /\ In c l.
Proof.
  unfold find_by_id. intros H. apply find_some in H. destruct H as [Hin He].
  split; [now apply eqb_true | exact Hin].
Qed.

Lemma find_by_id_filter a id l :
  a <> id ->
  find_by_id a (filter (fun c => negb (jsstring_eqb (id_of c) id)) l)
    = find_by_id a l.
Proof.
  intros Hne. unfold find_by_id. induction l as [|c l IH]; simpl.
  - reflexivity.
  - destruct (jsstring_eqb (id_of c) id) eqn:Ei; simpl.
    + apply eqb_true in Ei. rewrite eqb_neq by congruence. exact IH.
    + destruct (jsstring_eqb (id_of c) a); [reflexivity | exact IH].
Qed.

(** X17: A name given to a conversation is the name read back, and it changes
    the name of no other id. *)
Theorem conversation_name_set_then_get (s : State) (id name : jsstring) :
  getConversationName (setConversationName s id name) id = name /\
  (forall other, other <> id ->
     getConversationName (setConversationName s id name) other
       = getConversationName s other).
Proof.
  unfold getConversationName, setConversationName. simpl. split.
  - now rewrite map_get_set_same.
  - intros other Hne. now rewrite map_get_set_other.
Qed.

(** X18: An id without a name entry is shown under the id itself when a
    conversation has it, and as the empty string otherwise. *)
Theorem conversation_name_fallback (s : State) (id : jsstring) :
  map_get id (conversationNames s) = None ->
  getConversationName s id =
    if existsb (fun c => jsstring_eqb (id_of c) id) (conversations s)
    then id else [].
Proof.
  intros Hn. unfold getConversationName. rewrite Hn.
  destruct (find_by_id id (conversations s)) as [c|] eqn:Hf.
  - destruct (find_by_id_id _ _ Hf) as [Hid Hin].
    assert (Hex : existsb (fun c => jsstring_eqb (id_of c) id)
                    (conversations s) = true).
    { apply existsb_exists. exists c. split; [exact Hin|].
      rewrite Hid. apply eqb_refl. }
    now rewrite Hex.
  - destruct (existsb _ (conversations s)) eqn:Hex; [|reflexivity].
    apply existsb_exists in Hex. destruct Hex as (c & Hin & He).
    unfold find_by_id in Hf.
    pose proof (find_none _ _ Hf c Hin) as Hc. simpl in Hc. congruence.
Qed.

(** X19: Without [force], the active id is set to the requested id only when a
    conversation has it, and to [null] otherwise; with [force] it is set to
    whatever is requested. *)
Theorem active_id_names_a_conversation (s : State) (id : option jsstring) :
  (forall i, activeId (setActiveConversation s id false) = Some i ->
     id = Some i /\ i <> [] /\
     exists c, In c (conversations s) /\ id_of c = i) /\
  (activeId (setActiveConversation s id false) = None <->
   activeConversation (with_activeId s id) = None \/ id = Some []) /\
  activeId (setActiveConversation s id true) = id.
Proof.
  unfold setActiveConversation, activeConversation. simpl.
  destruct id as [[|x i]|]; simpl.
  - split; [intros i H; discriminate H|].
    split; [split; [intros _; now right | reflexivity] | reflexivity].
  - destruct (find_by_id (x :: i) (conversations s)) as [c|] eqn:Hf; simpl.
    + destruct (find_by_id_id _ _ Hf) as [Hid Hin].
      split.
      * intros j H. injection H as <-.
        split; [reflexivity|]. split; [discriminate|]. now exists c.
      * split; [|reflexivity].
        split; [discriminate | intros [H|H]; discriminate H].
    + split; [intros j H; discriminate H|].
      split; [|reflexivity]. split; [intros _; now left | reflexivity].
  - split; [intros i H; discriminate H|].
    split; [split; [intros _; now left | reflexivity] | reflexivity].
Qed.

(** X20: Removing the active conversation leaves a dangling active id: the
    lookup that guards it still sees the conversation being removed.  In
    the next render no conversation has the id and [activeConversation] is
    [null]. *)
Theorem removing_the_active_conversation (s : State) (id : jsstring) :
  activeId s = Some id ->
  id <> [] ->
  (exists c, In c (conversations s) /\ id_of c = id) ->
  activeId (removeConversation s id) = Some id /\
  activeConversation (removeConversation s id) = None /\
  (forall c, In c (conversations (removeConversation s id)) ->
     id_of c <> id).
Proof.
  intros Ha Hne (c & Hin & Hid).
  assert (Hfound : exists c', find_by_id id (conversations s) = Some c').
  { unfold find_by_id.
    destruct (find _ (conversations s)) as [c'|] eqn:Hf; [now exists c'|].
    pose proof (find_none _ _ Hf c Hin) as Hc. simpl in Hc.
    rewrite Hid, eqb_refl in Hc. discriminate. }
  destruct Hfound as [c' Hf].
  assert (Hnone : forall x,
            In x (filter (fun c => negb (jsstring_eqb (id_of c) id))
                         (conversations s)) ->
            id_of x <> id).
  { intros x Hx. apply filter_In in Hx. destruct Hx as [_ Hx].
    intros E. rewrite E, eqb_refl in Hx. discriminate. }
  assert (Hact : activeId (removeConversation s id) = Some id).
  { unfold removeConversation, setActiveConversation. simpl. rewrite Ha.
    destruct id as [|x i]; [now elim Hne|]. simpl. now rewrite Hf. }
  split; [exact Hact|]. split; [|exact Hnone].
  unfold activeConversation. rewrite Hact.
  change (conversations (removeConversation s id))
    with (filter (fun c => negb (jsstring_eqb (id_of c) id))
                 (conversations s)).
  destruct (find_by_id id (filter _ (conversations s))) as [x|] eqn:Hx;
    [|reflexivity].
  destruct (find_by_id_id _ _ Hx) as [E Hinx]. now elim (Hnone x Hinx).
Qed.

(** X21: Removing another conversation does not change which conversation is
    the active one. *)
Theorem removing_another_conversation (s : State) (a id : jsstring) :
  activeId s = Some a ->
  a <> [] ->
  a <> id ->
  activeConversation (removeConversation s id) = activeConversation s.
Proof.
  intros Ha Hne Hdiff.
  unfold activeConversation at 2. rewrite Ha.
  unfold activeConversation, removeConversation, setActiveConversation.
  simpl. rewrite Ha.
  destruct a as [|x a]; [now elim Hne|]. simpl.
  destruct (find_by_id (x :: a) (conversations s)) as [c|] eqn:Hf; simpl.
  - now rewrite find_by_id_filter, Hf.
  - reflexivity.
Qed.

End Provider.

(** *** Two conversations, the first one active and renamed *)

Definition two_open : State (jsstring * nat) :=
  {| conversations := [(str "c1", 1); (str "c2", 2)];
     activeId := Some (str "c1");
     conversationNames := [(str "c1", str "Trip plan")] |}.

Lemma conversation_name_fallback_witness :
  getConversationName fst two_open (str "c2") = str "c2" /\
  getConversationName fst two_open (str "c9") = [].
Proof.
  split.
  - exact (@conversation_name_fallback _ fst two_open (str "c2") eq_refl).
  - exact (@conversation_name_fallback _ fst two_open (str "c9") eq_refl).
Defined.

Lemma removing_the_active_conversation_witness :
  activeId (removeConversation fst two_open (str "c1")) = Some (str "c1") /\
  activeConversation fst (removeConversation fst two_open (str "c1")) = None.
Proof.
  destruct (@removing_the_active_conversation _ fst two_open (str "c1")
              eq_refl) as (H1 & H2 & _).
  - discriminate.
  - exists (str "c1", 1). split; [now left | reflexivity].
  - split; assumption.
Defined.

Lemma removing_another_conversation_witness :
  activeConversation fst (removeConversation fst two_open (str "c2"))
    = Some (str "c1", 1).
Proof.
  rewrite (@removing_another_conversation _ fst two_open (str "c1") (str "c2")
             eq_refl).
  - reflexivity.
  - discriminate.
  - intros H. vm_compute in H. discriminate H.
Defined.

End ConversationManager.

(** ** CallableFunctionsProvider (web)

    Looking up a callable function and running its code.  Building and
    calling the function ([new Function(...argNames, code)],
    [fn(...argValues)]) is the JavaScript engine's work and is taken as
    given, with its outcomes; promises and thenables are taken to settle. *)
Module CallableFunctions.
Import Js.

Section Provider.

(** The [CallableFunction] objects of the library, of which the provider
    reads the [id] and the names of the [parameters]. *)
Variable Fn : Type.
Variable fn_id : Fn -> jsstring.
Variable parameter_names : Fn -> list jsstring.

(** JavaScript values; [nullish v] is [v === null || v === undefined]. *)
Variable Value : Type.
Variable undefined : Value.
Variable nullish : Value -> bool.

(** What indexing the two records of the store yields when it is not
    [undefined], and [!!code]. *)
Variable DisplayName : Type.
Variable Code : Type.
Variable code_truthy : Code -> bool.

Inductive Thrown :=
| JsError (message : jsstring)
| Raised (v : Value).

Inductive Result (A : Type) :=
| Returned (a : A)
| Threw (e : Thrown).
Arguments Returned {A} a.
Arguments Threw {A} e.

(** What building and calling the function gives: it throws; it returns a
    value that is neither a promise nor a thenable; it returns a [Promise],
    which settles; or it returns a thenable that is not a [Promise], which
    the [async] function adopts when it returns it. *)
Inductive Run :=
| RunThrew (e : Thrown)
| RunValue (v : Value)
| RunPromise (settled : Result Value)
| RunThenable (settled : Result Value).

Variable run : list jsstring -> Code -> list Value -> Run.

(** The notifications shown, by kind and display name. *)
Inductive Notification :=
| NotifyLoading (displayName : DisplayName)
| NotifySuccess (displayName : DisplayName)
| NotifyHide
| NotifyFailed (displayName : DisplayName) (e : Thrown).

(** The slice of the app store the provider selects.  The two records are
    given by what indexing them with an id evaluates to, [None] for
    [undefined], whichever property the lookup finds. *)
Record Store := {
  functions : list Fn;
  displayNames : jsstring -> option DisplayName;
  codes : jsstring -> option Code
}.

Definition quote : jsstring := [34%N].

Definition no_function_message (id : jsstring) : jsstring :=
  str "No callable function found with id " ++ quote ++ id ++ quote.

Definition no_display_name_message (id : jsstring) : jsstring :=
  str "No display name found for callable function with id "
    ++ quote ++ id ++ quote.

(** [getCallableFunction(id)] *)
Definition getCallableFunction (st : Store) (id : jsstring) : Result Fn :=
  match find (fun fn => jsstring_eqb (fn_id fn) id) (functions st) with
  | Some callableFunction => Returned callableFunction
  | None => Threw (JsError (no_function_message id))
  end.

(** [getCallableFunctionDisplayName(id)] *)
Definition getCallableFunctionDisplayName (st : Store) (id : jsstring)
  : Result DisplayName :=
  match displayNames st id with
  | Some displayName => Returned displayName
  | None => Threw (JsError (no_display_name_message id))
  end.

(** [getCallableFunctionCode(id)] *)
Definition getCallableFunctionCode (st : Store) (id : jsstring)
  : option Code :=
  codes st id.

(** [args[name] ?? undefined], where [args name] is what indexing the
    [args] object with [name] yields, [None] when nothing is found. *)
Definition argument (args : jsstring -> option Value) (name : jsstring)
  : Value :=
  match args name with
  | Some v => if nullish v then undefined else v
  | None => undefined
  end.

(** The [reduce] of [callFunction] over the parameters, pushing a name and
    a value at each step. *)
Definition marshal (names : list jsstring) (args : jsstring -> option Value)
  : list jsstring * list Value :=
  fold_left
    (fun acc name => (fst acc ++ [name], snd acc ++ [argument args name]))
    names ([], []).

(** [callFunction(id, args)], with the notifications it shows in order.
    The two lookups come before the [try].  Whatever is thrown inside the
    [try] ends in the outer [catch], which notifies the failure and returns
    [undefined].  A result that is not a [Promise] is returned from the
    [async] function as it is, which settles the call by that result: a
    thenable is adopted, outside the [try]. *)
Definition callFunction (st : Store) (id : jsstring)
    (args : jsstring -> option Value) : list Notification * Result Value :=
  match getCallableFunction st id with
  | Threw e => ([], Threw e)
  | Returned callableFunction =>
      match getCallableFunctionDisplayName st id with
      | Threw e => ([], Threw e)
      | Returned displayName =>
          match getCallableFunctionCode st id with
          | None => ([], Returned undefined)
          | Some code =>
              if negb (code_truthy code) then ([], Returned undefined)
              else
                let (argNames, argValues) :=
                  marshal (parameter_names callableFunction) args in
                match run argNames code argValues with
                | RunThrew e =>
                    ([NotifyFailed displayName e], Returned undefined)
                | RunValue result => ([], Returned result)
                | RunThenable settled => ([], settled)
                | RunPromise (Returned awaited) =>
                    ([NotifyLoading displayName; NotifySuccess displayName],
                     Returned awaited)
                | RunPromise (Threw e) =>
                    ([NotifyLoading displayName; NotifyHide;
                      NotifyFailed displayName e],
                     Returned undefined)
                end
          end
      end
  end.

Lemma marshal_from names args accN accV :
  fold_left
    (fun acc name => (fst acc ++ [name], snd acc ++ [argument args name]))
    names (accN, accV)
  = (accN ++ names, accV ++ map (argument args) names).
Proof.
  revert accN accV. induction names as [|n names IH]; intros accN accV; simpl.
  - now rewrite !app_nil_r.
  - rewrite IH, <- !app_assoc. reflexivity.
Qed.

(** X22: the arguments handed to the function: one per declared parameter,
    in declaration order, at the position of its parameter.  The value for
    a parameter is [args[name]] when that is present and neither [null] nor
    [undefined], and [undefined] when it is missing, [null] or
    [undefined]; properties of [args] that name no parameter play no
    role. *)
Theorem marshal_by_parameter names args :
  fst (marshal names args) = names /\
  List.length (snd (marshal names args)) = List.length names /\
  (forall i name,
     nth_error names i = Some name ->
     nth_error (snd (marshal names args)) i =
       Some (match args name with
             | Some v => if nullish v then undefined else v
             | None => undefined
             end)) /\
  (forall args',
     (forall name, In name names -> args' name = args name) ->
     marshal names args' = marshal names args).
Proof.
  unfold marshal. rewrite marshal_from. simpl. repeat split.
  - now rewrite length_map.
  - intros i name H. now rewrite nth_error_map, H.
  - intros args' H. rewrite marshal_from. simpl. f_equal.
    apply map_ext_in. intros name Hin. unfold argument. now rewrite H.
Qed.

(** X23: [getCallableFunction] returns a function of the store that has the
    requested id, and throws exactly when no function has it. *)
Theorem getCallableFunction_lookup (st : Store) (id : jsstring) :
  (forall fn, getCallableFunction st id = Returned fn ->
     In fn (functions st) /\ fn_id fn = id) /\
  (getCallableFunction st id = Threw (JsError (no_function_message id)) <->
   forall fn, In fn (functions st) -> fn_id fn <> id).
Proof.
  unfold getCallableFunction.
  destruct (find _ (functions st)) as [f|] eqn:Hf.
  - apply find_some in Hf. destruct Hf as [Hin He].
    assert (Hid : fn_id f = id).
    { unfold jsstring_eqb in He.
      destruct (list_eq_dec N.eq_dec (fn_id f) id); congruence. }
    split.
    + intros fn H. injection H as <-. now split.
    + split; [discriminate|]. intros H. now elim (H f Hin).
  - split; [discriminate|]. split; [|reflexivity].
    intros _ fn Hin E. pose proof (find_none _ _ Hf fn Hin) as Hn.
    simpl in Hn. unfold jsstring_eqb in Hn.
    destruct (list_eq_dec N.eq_dec (fn_id fn) id); congruence.
Qed.

(** X24: [callFunction] rejects only when the id names no function, when
    it has no display name, or when the function returns a thenable that is
    not a [Promise] and that rejects; in none of these cases is a
    notification shown.  For a known function with a display name and
    code: when building or calling the function throws [e], or the
    [Promise] it returns rejects with [e], the call returns [undefined] and
    the failure notification for [e] is the last one shown.  Without code
    the call returns [undefined] and shows nothing. *)
Theorem callFunction_error_policy (st : Store) (id : jsstring) args :
  (forall e, snd (callFunction st id args) = Threw e ->
     fst (callFunction st id args) = [] /\
     (getCallableFunction st id = Threw e \/
      getCallableFunctionDisplayName st id = Threw e \/
      exists fn code,
        getCallableFunction st id = Returned fn /\
        getCallableFunctionCode st id = Some code /\
        code_truthy code = true /\
        run (fst (marshal (parameter_names fn) args)) code
            (snd (marshal (parameter_names fn) args))
          = RunThenable (Threw e))) /\
  (forall fn displayName,
     getCallableFunction st id = Returned fn ->
     getCallableFunctionDisplayName st id = Returned displayName ->
     (forall code e,
        getCallableFunctionCode st id = Some code ->
        code_truthy code = true ->
        run (fst (marshal (parameter_names fn) args)) code
            (snd (marshal (parameter_names fn) args)) = RunThrew e \/
        run (fst (marshal (parameter_names fn) args)) code
            (snd (marshal (parameter_names fn) args))
          = RunPromise (Threw e) ->
        snd (callFunction st id args) = Returned undefined /\
        last (fst (callFunction st id args)) NotifyHide
          = NotifyFailed displayName e) /\
     (forall e,
        In (NotifyFailed displayName e) (fst (callFunction st id args)) ->
        snd (callFunction st id args) = Returned undefined /\
        last (fst (callFunction st id args)) NotifyHide
          = NotifyFailed displayName e) /\
     (match getCallableFunctionCode st id with
      | Some code => code_truthy code = false
      | None => True
      end ->
      callFunction st id args = ([], Returned undefined))).
Proof.
  unfold callFunction. split.
  - intros e.
    destruct (getCallableFunction st id) as [f|e1]; simpl;
      [|intros H; injection H as <-; auto].
    destruct (getCallableFunctionDisplayName st id) as [n|e2]; simpl;
      [|intros H; injection H as <-; auto].
    destruct (getCallableFunctionCode st id) as [code|]; simpl;
      [|discriminate].
    destruct (code_truthy code) eqn:Hc; simpl; [|discriminate].
    destruct (marshal (parameter_names f) args) as [argNames argValues]
      eqn:Hm.
    simpl.
    destruct (run argNames code argValues) as [e3|v|[v|e3]|[v|e3]] eqn:Hr;
      simpl; try discriminate.
    intros H. injection H as <-. split; [reflexivity|].
    right. right. exists f, code. rewrite Hm. simpl. auto.
  - intros fn displayName Hf Hn. rewrite Hf, Hn.
    destruct (getCallableFunctionCode st id) as [code|]; simpl.
    2:{ split; [intros code e H; discriminate H|].
        split; [intros e []|reflexivity]. }
    destruct (code_truthy code) eqn:Hc; simpl.
    2:{ split; [intros code' e H Ht; injection H as <-; congruence|].
        split; [intros e []|reflexivity]. }
    destruct (marshal (parameter_names fn) args) as [argNames argValues].
    simpl.
    destruct (run argNames code argValues) as [e3|v|[v|e3]|[v|e3]] eqn:Hr;
      simpl;
      (split;
       [intros code' e H _ [Hx|Hx]; injection H as <-; rewrite Hr in Hx;
        try discriminate Hx; injection Hx as <-; auto|]);
      (split; [|discriminate]); intros e Hin;
      simpl in Hin; intuition (try discriminate);
      match goal with H : NotifyFailed _ _ = NotifyFailed _ _ |- _ =>
        injection H as <- end; auto.
Qed.

End Provider.
End CallableFunctions.

(** ** CallableFunctionFormProvider (web): the submit handler

    The callback handed to [form.onSubmit]: it runs on values the form
    library has validated, looks for another function with the same name or
    display name, and hands the values to [onSubmit] when there is none. *)
Module CallableFunctionForm.
Import Js.

Section Handler.

(** The callable functions of the app, of which the handler reads [id] and
    [name]. *)
Variable Fn : Type.
Variable fn_id : Fn -> jsstring.
Variable fn_name : Fn -> jsstring.

(** What a collaborator throws. *)
Variable E : Type.

Inductive Result (A : Type) :=
| Returned (a : A)
| Threw (e : E).
Arguments Returned {A} a.
Arguments Threw {A} e.

(** [getCallableFunctionDisplayName] of the [useCallableFunctions] hook,
    which may throw, and the [onSubmit] prop, which may reject. *)
Variable getCallableFunctionDisplayName : jsstring -> Result jsstring.

(** The form values the handler reads. *)
Record Values := {
  v_id : jsstring;
  v_displayName : jsstring;
  v_name : jsstring
}.

Variable onSubmit : Values -> Result unit.

Inductive Field := FieldName | FieldDisplayName.

(** What the handler did: it set errors on fields and returned, or it
    awaited [onSubmit]. *)
Inductive Outcome :=
| FieldErrors (fields : list Field)
| Submitted.

(** [Array.prototype.find] with a predicate that may throw. *)
Fixpoint find_or_throw {A} (p : A -> Result bool) (l : list A)
  : Result (option A) :=
  match l with
  | [] => Returned None
  | x :: l' =>
      match p x with
      | Threw e => Threw e
      | Returned true => Returned (Some x)
      | Returned false => find_or_throw p l'
      end
  end.

(** [f.id !== values.id && f.name === values.name] *)
Definition same_name_elsewhere (values : Values) (f : Fn) : bool :=
  negb (jsstring_eqb (fn_id f) (v_id values))
  && jsstring_eqb (fn_name f) (v_name values).

(** [f.id !== values.id &&
     getCallableFunctionDisplayName(f.id) === values.displayName] *)
Definition same_display_name_elsewhere (values : Values) (f : Fn)
  : Result bool :=
  if negb (jsstring_eqb (fn_id f) (v_id values))
  then
    match getCallableFunctionDisplayName (fn_id f) with
    | Returned displayName =>
        Returned (jsstring_eqb displayName (v_displayName values))
    | Threw e => Threw e
    end
  else Returned false.

Definition is_some {A} (x : option A) : bool :=
  match x with Some _ => true | None => false end.

(** The handler. *)
Definition handleSubmit (callableFunctions : list Fn) (values : Values)
  : Result Outcome :=
  let existingName :=
    find (same_name_elsewhere values) callableFunctions in
  match find_or_throw (same_display_name_elsewhere values) callableFunctions
  with
  | Threw e => Threw e
  | Returned existingDisplayName =>
      let errors :=
        (if is_some existingName then [FieldName] else [])
        ++ (if is_some existingDisplayName then [FieldDisplayName] else []) in
      if is_some existingName || is_some existingDisplayName
      then Returned (FieldErrors errors)
      else
        match onSubmit values with
        | Returned _ => Returned Submitted
        | Threw e => Threw e
        end
  end.

(** Another function, not the one being edited, already has the name. *)
Definition name_taken (fs : list Fn) (values : Values) : Prop :=
  exists f, In f fs /\ fn_id f <> v_id values /\ fn_name f = v_name values.

(** Another function already has the display name. *)
Definition display_name_taken (fs : list Fn) (values : Values) : Prop :=
  exists f, In f fs /\ fn_id f <> v_id values /\
            getCallableFunctionDisplayName (fn_id f)
              = Returned (v_displayName values).

Lemma str_eqb_iff (a b : jsstring) : jsstring_eqb a b = true <-> a = b.
Proof.
  unfold jsstring_eqb. destruct (list_eq_dec N.eq_dec a b); split; congruence.
Qed.

Lemma str_eqb_false (a b : jsstring) : jsstring_eqb a b = false <-> a <> b.
Proof.
  unfold jsstring_eqb. destruct (list_eq_dec N.eq_dec a b); split; congruence.
Qed.

Lemma find_name_taken fs values :
  is_some (find (same_name_elsewhere values) fs) = true
  <-> name_taken fs values.
Proof.
  unfold name_taken. split.
  - destruct (find _ fs) as [f|] eqn:Hf; [intros _ | discriminate].
    apply find_some in Hf. destruct Hf as [Hin Hp].
    unfold same_name_elsewhere in Hp. apply andb_true_iff in Hp.
    destruct Hp as [H1 H2]. apply negb_true_iff, str_eqb_false in H1.
    apply str_eqb_iff in H2. now exists f.
  - intros (f & Hin & Hid & Hname).
    destruct (find _ fs) as [g|] eqn:Hf; [reflexivity|].
    pose proof (find_none _ _ Hf f Hin) as Hn.
    unfold same_name_elsewhere in Hn.
    apply str_eqb_false in Hid. apply str_eqb_iff in Hname.
    rewrite Hid, Hname in Hn. discriminate.
Qed.

Lemma find_display_name_taken fs values found :
  find_or_throw (same_display_name_elsewhere values) fs = Returned found ->
  (is_some found = true <-> display_name_taken fs values).
Proof.
  unfold display_name_taken.
  revert found. induction fs as [|f fs IH]; simpl; intros found H.
  - injection H as <-. split; [discriminate | intros (f & [] & _)].
  - destruct (same_display_name_elsewhere values f) as [[|]|e] eqn:Hp;
      [| |discriminate].
    + injection H as <-. split; [intros _ | reflexivity].
      unfold same_display_name_elsewhere in Hp.
      destruct (jsstring_eqb (fn_id f) (v_id values)) eqn:Hid; simpl in Hp;
        [discriminate|].
      destruct (getCallableFunctionDisplayName (fn_id f)) as [d|e] eqn:Hd;
        [|discriminate].
      injection Hp as Hp. apply str_eqb_iff in Hp. subst d.
      exists f. split; [now left|]. split; [now apply str_eqb_false | exact Hd].
    + specialize (IH found H). split.
      * intros Hs. apply IH in Hs. destruct Hs as (g & Hin & Hg).
        exists g. split; [now right | exact Hg].
      * intros (g & [<-|Hin] & Hid & Hd).
        -- unfold same_display_name_elsewhere in Hp.
           apply str_eqb_false in Hid. rewrite Hid, Hd in Hp. simpl in Hp.
           injection Hp as Hp.
           assert (jsstring_eqb (v_displayName values) (v_displayName values)
                   = true) by now apply str_eqb_iff.
           congruence.
        -- apply IH. now exists g.
Qed.

(** X25: When the handler finishes without throwing, it either hands the values
    to [onSubmit] or sets field errors, never both: it submits exactly when
    no other function has the name or the display name; the name error is
    set exactly when the name is taken, the display-name error exactly when
    the display name is taken, and both can be set at once.  The function
    being edited never conflicts with itself. *)
Theorem submit_requires_unique_names fs values outcome :
  handleSubmit fs values = Returned outcome ->
  (outcome = Submitted <->
   ~ name_taken fs values /\ ~ display_name_taken fs values) /\
  (forall fields, outcome = FieldErrors fields ->
     (In FieldName fields <-> name_taken fs values) /\
     (In FieldDisplayName fields <-> display_name_taken fs values)).
Proof.
  unfold handleSubmit.
  destruct (find_or_throw _ fs) as [found|e] eqn:Hd; [|discriminate].
  pose proof (find_name_taken fs values) as Hn.
  pose proof (find_display_name_taken _ _ Hd) as Hdn.
  destruct (is_some (find (same_name_elsewhere values) fs)) eqn:En;
    destruct (is_some found) eqn:Ed; simpl; intros H.
  - injection H as <-. split.
    + split; [discriminate|]. intros [H _]. elim H. now apply Hn.
    + intros fields Hfs. injection Hfs as <-. simpl. split; split; intros _;
        try (now apply Hn); try (now apply Hdn); auto.
  - injection H as <-. split.
    + split; [discriminate|]. intros [H _]. elim H. now apply Hn.
    + intros fields Hfs. injection Hfs as <-. simpl. split; split.
      * intros _. now apply Hn.
      * auto.
      * intros [H|[]]. discriminate H.
      * intros H. apply Hdn in H. discriminate H.
  - injection H as <-. split.
    + split; [discriminate|]. intros [_ H]. elim H. now apply Hdn.
    + intros fields Hfs. injection Hfs as <-. simpl. split; split.
      * intros [H|[]]. discriminate H.
      * intros H. apply Hn in H. discriminate H.
      * intros _. now apply Hdn.
      * auto.
  - destruct (onSubmit values) as [[]|e]; [|discriminate].
    injection H as <-. split.
    + split; [intros _ | reflexivity].
      split; intros H; [apply Hn in H | apply Hdn in H]; discriminate H.
    + intros fields Hfs. discriminate Hfs.
Qed.

(** X26: A function that has no display name makes the handler throw when the
    search reaches it, before any error is set and before [onSubmit] is
    called, even when the submitted names are free. *)
Theorem missing_display_name_aborts_submit fs values before f after e :
  fs = before ++ f :: after ->
  fn_id f <> v_id values ->
  getCallableFunctionDisplayName (fn_id f) = Threw e ->
  (forall g, In g before ->
     same_display_name_elsewhere values g = Returned false) ->
  handleSubmit fs values = Threw e.
Proof.
  intros -> Hid Hd Hbefore. unfold handleSubmit.
  assert (H : find_or_throw (same_display_name_elsewhere values)
                (before ++ f :: after) = Threw e).
  { induction before as [|g before IH]; simpl.
    - unfold same_display_name_elsewhere.
      apply str_eqb_false in Hid. now rewrite Hid, Hd.
    - rewrite (Hbefore g (or_introl eq_refl)). apply IH.
      intros h Hh. apply Hbefore. now right. }
  now rewrite H.
Qed.

End Handler.

Arguments Returned {E A} a.
Arguments Threw {E A} e.

(** *** Two functions in the app

    A function is its id and its name; error 404 stands for the missing
    display name. *)

Definition display_names (id : jsstring) : Result nat jsstring :=
  if jsstring_eqb id (str "f1") then Returned (str "Get time")
  else if jsstring_eqb id (str "f2") then Returned (str "Get weather")
  else Threw 404.

Definition accept (values : Values) : Result nat unit := Returned tt.

Definition registered : list (jsstring * jsstring) :=
  [(str "f1", str "getTime"); (str "f2", str "getWeather")].

(** Saving [f1] again under its own names is not a conflict. *)
Lemma submit_requires_unique_names_witness :
  ~ name_taken fst snd registered
      {| v_id := str "f1"; v_displayName := str "Get time";
         v_name := str "getTime" |} /\
  ~ display_name_taken fst display_names registered
      {| v_id := str "f1"; v_displayName := str "Get time";
         v_name := str "getTime" |}.
Proof.
  apply (proj1 (proj1 (@submit_requires_unique_names _ fst snd nat
                         display_names accept registered
                         {| v_id := str "f1"; v_displayName := str "Get time";
                            v_name := str "getTime" |}
                         (Submitted) eq_refl))).
  reflexivity.
Defined.

Example taken_names_are_reported :
  handleSubmit fst snd display_names accept registered
    {| v_id := str "f3"; v_displayName := str "Get weather";
       v_name := str "getTime" |}
  = Returned (FieldErrors [FieldName; FieldDisplayName]).
Proof. reflexivity. Qed.

(** A third function without display name stops every submission of
    another function. *)
Lemma missing_display_name_aborts_submit_witness :
  handleSubmit fst snd display_names accept
    (registered ++ [(str "f3", str "getNews")])
    {| v_id := str "f1"; v_displayName := str "Get time";
       v_name := str "getTime" |}
  = Threw 404.
Proof.
  apply (@missing_display_name_aborts_submit _ fst snd nat display_names
           accept _ _ registered (str "f3", str "getNews") [] 404).
  - reflexivity.
  - intros H. vm_compute in H. discriminate H.
  - reflexivity.
  - intros g [<-|[<-|[]]]; reflexivity.
Defined.

End CallableFunctionForm.
